(** * ECS: packed component arrays, views and the registry

    A shallow embedding of [Common.hpp], [ComponentArray.hpp], [View.hpp] and
    [Registry.hpp], followed by the properties of the storage engine, of the
    view protocol and of the entity allocator.

    Conventions of the embedding.
    - [uint32_t] and [size_t] values are binary naturals; every increment and
      decrement is written with its wrap-around ([uint32_wrap], [size_t_wrap]).
    - [std::unordered_map] is a [gmap]; [operator[]] is [subscript], which
      value-initialises and inserts a missing key the way the C++ operator does.
    - The order in which an [std::unordered_map] is enumerated is left open by
      the language; it is the parameter [MapOrder], of which only the fact that
      it enumerates every key once is known.
    - The fixed array [T m_ComponentArray[MAX_ENTITIES]] is a function from
      slots to values, every slot value-initialised at first; an access
      outside [0, MAX_ENTITIES) is undefined behaviour, the outcome [Undefined]
      of the [Result] type. A failed [assert] is the outcome [AssertionFailed]
      with the message of the source. *)

From stdpp Require Import base numbers option functions list sorting gmap strings fin_maps.

Local Open Scope N_scope.

(** ** Common.hpp *)

Abbreviation Entity := N (only parsing).
Abbreviation ComponentTypeId := N (only parsing).
Abbreviation Index := N (only parsing).

Definition MAX_ENTITIES : N := 50000.
Definition MAX_COMPONENTS : N := 32.

Definition uint32_wrap (n : N) : N := n mod 2 ^ 32.
Definition size_t_wrap (n : N) : N := n mod 2 ^ 64.

(** [x + 1] and [x - 1] on the two unsigned types. *)
Definition uint32_incr (n : N) : N := uint32_wrap (n + 1).
Definition uint32_decr (n : N) : N := uint32_wrap (n + 2 ^ 32 - 1).
Definition size_t_incr (n : N) : N := size_t_wrap (n + 1).
Definition size_t_decr (n : N) : N := size_t_wrap (n + 2 ^ 64 - 1).

(** ** Outcomes of a call *)

(** A call returns ([Ok]), stops at a failed [assert] ([AssertionFailed],
    asserts being compiled in), or has undefined behaviour ([Undefined]): an
    array access out of bounds or [front()] of an empty queue. *)
Inductive Result (A : Type) : Type :=
| Ok (a : A)
| AssertionFailed (msg : string)
| Undefined.
Arguments Ok {A} a.
Arguments AssertionFailed {A} msg.
Arguments Undefined {A}.

#[global] Instance Result_ret : MRet Result := λ A a, Ok a.
#[global] Instance Result_bind : MBind Result := λ A B f r,
  match r with
  | Ok a => f a
  | AssertionFailed msg => AssertionFailed msg
  | Undefined => Undefined
  end.
#[global] Instance Result_fmap : FMap Result := λ A B f r,
  match r with
  | Ok a => Ok (f a)
  | AssertionFailed msg => AssertionFailed msg
  | Undefined => Undefined
  end.

(** [assert(cond && msg)] *)
Definition assert (cond : bool) (msg : string) : Result unit :=
  if cond then Ok tt else AssertionFailed msg.

(** ** std::unordered_map *)

(** [m[k]]: the mapped value, value-initialised and inserted when [k] is
    missing. Both maps of a component array map naturals to naturals. *)
Definition subscript (m : gmap N N) (k : N) : N * gmap N N :=
  match m !! k with
  | Some v => (v, m)
  | None => (0, <[k := 0]> m)
  end.

(** The enumeration order of an [std::unordered_map<Entity, Index>]. *)
Class MapOrder := {
  map_keys : gmap Entity Index → list Entity;
  map_keys_perm : ∀ m, map_keys m ≡ₚ (map_to_list m).*1
}.

(** Two enumeration orders a standard library may have: keys in increasing
    order and keys in decreasing order. *)
Definition keys_ascending (m : gmap Entity Index) : list Entity :=
  merge_sort N.le (map_to_list m).*1.
Definition keys_descending (m : gmap Entity Index) : list Entity :=
  reverse (keys_ascending m).

Definition AscendingOrder : MapOrder :=
  {| map_keys := keys_ascending;
     map_keys_perm := λ m, merge_sort_Permutation N.le _ |}.
Definition DescendingOrder : MapOrder :=
  {| map_keys := keys_descending;
     map_keys_perm := λ m,
       transitivity (reverse_Permutation _) (merge_sort_Permutation N.le _) |}.

(** ** ComponentArray.hpp *)

Record ComponentArray (T : Type) : Type := mkComponentArray {
  m_ComponentArray : Index → T;
  m_EntityToIndexMap : gmap Entity Index;
  m_IndexToEntityMap : gmap Index Entity;
  m_Size : Index
}.
Arguments mkComponentArray {T}.
Arguments m_ComponentArray {T}.
Arguments m_EntityToIndexMap {T}.
Arguments m_IndexToEntityMap {T}.
Arguments m_Size {T}.

(** The position of a [ComponentArray<T>::Iterator]; the array it points into
    is the array of the store it was taken from. *)
Record Iterator := mkIterator { m_Index : Index }.

(** A [ComponentArray<T>::EntityIterator] is a position in the enumeration of
    [m_EntityToIndexMap]: the keys from that position on. The end iterator has
    none left. *)
Definition EntityIterator := list Entity.

Module ComponentArray.
Section ComponentArray.
Context {T : Type} `{!Inhabited T} `{!MapOrder}.

(** [T m_ComponentArray[MAX_ENTITIES]{}], no entry in either map, size 0. *)
Definition new : ComponentArray T :=
  {| m_ComponentArray := λ _, inhabitant;
     m_EntityToIndexMap := ∅;
     m_IndexToEntityMap := ∅;
     m_Size := 0 |}.

(** [m_ComponentArray[i]] read and written. *)
Definition array_read (a : Index → T) (i : Index) : Result T :=
  if decide (i < MAX_ENTITIES) then Ok (a i) else Undefined.

Definition array_write (a : Index → T) (i : Index) (v : T)
  : Result (Index → T) :=
  if decide (i < MAX_ENTITIES) then Ok (<[i := v]> a) else Undefined.

(** [InsertData]: the result is the slot the returned reference designates
    and the store after the call. *)
Definition InsertData (entity : Entity) (v : T) (s : ComponentArray T)
  : Result (Index * ComponentArray T) :=
  let newIndex := m_Size s in
  let e2i := <[entity := newIndex]> (m_EntityToIndexMap s) in
  let i2e := <[newIndex := entity]> (m_IndexToEntityMap s) in
  arr ← array_write (m_ComponentArray s) newIndex v;
  Ok (newIndex,
      {| m_ComponentArray := arr;
         m_EntityToIndexMap := e2i;
         m_IndexToEntityMap := i2e;
         m_Size := size_t_incr (m_Size s) |}).

Definition RemoveData (entity : Entity) (s : ComponentArray T)
  : Result (ComponentArray T) :=
  let '(indexOfRemovedEntity, e2i) := subscript (m_EntityToIndexMap s) entity in
  let indexOfLastElement := size_t_decr (m_Size s) in
  lastElement ← array_read (m_ComponentArray s) indexOfLastElement;
  arr ← array_write (m_ComponentArray s) indexOfRemovedEntity lastElement;
  let '(entityOfLastElement, i2e) :=
    subscript (m_IndexToEntityMap s) indexOfLastElement in
  let e2i := <[entityOfLastElement := indexOfRemovedEntity]> e2i in
  let i2e := <[indexOfRemovedEntity := entityOfLastElement]> i2e in
  let e2i := delete entity e2i in
  let i2e := delete indexOfLastElement i2e in
  Ok {| m_ComponentArray := arr;
        m_EntityToIndexMap := e2i;
        m_IndexToEntityMap := i2e;
        m_Size := size_t_decr (m_Size s) |}.

(** [GetData]: the value the returned reference designates and the store
    after the call ([operator[]] may have inserted [entity]). *)
Definition GetData (entity : Entity) (s : ComponentArray T)
  : Result (T * ComponentArray T) :=
  let '(index, e2i) := subscript (m_EntityToIndexMap s) entity in
  v ← array_read (m_ComponentArray s) index;
  Ok (v,
      {| m_ComponentArray := m_ComponentArray s;
         m_EntityToIndexMap := e2i;
         m_IndexToEntityMap := m_IndexToEntityMap s;
         m_Size := m_Size s |}).

Definition HasData (entity : Entity) (s : ComponentArray T) : bool :=
  bool_decide (is_Some (m_EntityToIndexMap s !! entity)).

Definition OnEntityDestroyed (entity : Entity) (s : ComponentArray T)
  : Result (ComponentArray T) :=
  if HasData entity s then RemoveData entity s else Ok s.

(** *** Iterator *)

Definition Iterator_incr (it : Iterator) : Iterator :=
  {| m_Index := size_t_decr (m_Index it) |}.
Definition Iterator_decr (it : Iterator) : Iterator :=
  {| m_Index := size_t_incr (m_Index it) |}.
Definition Iterator_eq (it other : Iterator) : bool :=
  bool_decide (m_Index it = m_Index other).
Definition Iterator_ne (it other : Iterator) : bool :=
  negb (Iterator_eq it other).
(** [operator->] and [operator*]: the slot at [m_Index - 1]. *)
Definition Iterator_deref (s : ComponentArray T) (it : Iterator) : Result T :=
  let pos := size_t_decr (m_Index it) in
  array_read (m_ComponentArray s) pos.

Definition begin (s : ComponentArray T) : Iterator := {| m_Index := m_Size s |}.
Definition end_ (s : ComponentArray T) : Iterator := {| m_Index := 0 |}.

(** [for (auto& c : store) ...]: the values the loop body receives, in
    order. [fuel] bounds the number of iterations; a loop that has not
    reached [end()] by then has no result. *)
Fixpoint range_loop (fuel : nat) (s : ComponentArray T) (it : Iterator)
  : Result (list T) :=
  match fuel with
  | O => Undefined
  | S fuel =>
      if Iterator_ne it (end_ s) then
        c ← Iterator_deref s it;
        rest ← range_loop fuel s (Iterator_incr it);
        Ok (c :: rest)
      else Ok []
  end.

(** *** EntityIterator *)

Definition BeginEntityIt (s : ComponentArray T) : EntityIterator :=
  map_keys (m_EntityToIndexMap s).
Definition EndEntityIt (s : ComponentArray T) : EntityIterator := [].
Definition EntityIterator_incr (it : EntityIterator) : EntityIterator := tail it.
Definition EntityIterator_deref (it : EntityIterator) : Result Entity :=
  match it with
  | e :: _ => Ok e
  | [] => Undefined
  end.
(** The entities a loop [for (it = first; it != last; ++it)] visits. *)
Definition EntityIterator_range (first last : EntityIterator) : list Entity :=
  take (length first - length last) first.

End ComponentArray.
End ComponentArray.

(** ** View.hpp *)

(** The stores of a registry, keyed by component type id. The value type [V]
    ranges over the component types in use: the store of a type holds the
    values of that type only. A [std::shared_ptr] to a store is the key of the
    store in this map, so that a view and the registry designate the same
    store; the registry never removes or replaces a store. *)
Abbreviation Stores V := (gmap ComponentTypeId (ComponentArray V)).

(** [View<Component...>]: [m_Arrays], the handles of the stores in the order
    of the template arguments; [std::get<0>] is [m_First]. The registry makes
    views of at least one type only. *)
Record View := mkView {
  m_First : ComponentTypeId;
  m_Rest : list ComponentTypeId
}.

Definition m_Arrays (v : View) : list ComponentTypeId := m_First v :: m_Rest v.

Module View.
Section View.
Context {V : Type} `{!Inhabited V} `{!MapOrder}.

(** The store a handle designates. *)
Definition store (stores : Stores V) (c : ComponentTypeId) : ComponentArray V :=
  default ComponentArray.new (stores !! c).

Definition Contains (v : View) (entity : Entity) (stores : Stores V) : bool :=
  forallb (λ c, ComponentArray.HasData entity (store stores c)) (m_Arrays v).

(** [GetAsTuple] applied to the store of [Comp] and to [entity]. *)
Definition GetAsTuple (c : ComponentTypeId) (entity : Entity) (stores : Stores V)
  : Result (V * Stores V) :=
  '(x, s) ← ComponentArray.GetData entity (store stores c);
  Ok (x, <[c := s]> stores).

(** The pack expansion [f<Comp>(...)...], left to right. *)
Fixpoint expand (f : ComponentTypeId → Stores V → Result (V * Stores V))
    (comps : list ComponentTypeId) (stores : Stores V)
  : Result (list V * Stores V) :=
  match comps with
  | [] => Ok ([], stores)
  | c :: comps =>
      '(x, stores) ← f c stores;
      '(xs, stores) ← expand f comps stores;
      Ok (x :: xs, stores)
  end.

(** [Get<Comp...>(entity)]; with no [Comp] the types of the view. *)
Definition Get (v : View) (comps : list ComponentTypeId) (entity : Entity)
    (stores : Stores V) : Result (list V * Stores V) :=
  _ ← assert (Contains v entity stores) "View does not contain entity";
  match comps with
  | [] => expand (λ c, GetAsTuple c entity) (m_Arrays v) stores
  | _ => expand (λ c, GetAsTuple c entity) comps stores
  end.

Definition begin (v : View) (stores : Stores V) : EntityIterator :=
  ComponentArray.BeginEntityIt (store stores (m_First v)).
Definition end_ (v : View) (stores : Stores V) : EntityIterator :=
  ComponentArray.EndEntityIt (store stores (m_First v)).

(** [for (const Entity entity : view)]: the entities the body receives. *)
Definition range (v : View) (stores : Stores V) : list Entity :=
  ComponentArray.EntityIterator_range (begin v stores) (end_ v stores).

(** [DispatchGet<Comp>(it, entity)]: [it] iterates the store of the first
    type of the view; [Comp] is that type exactly when the two value types
    are the same. *)
Definition DispatchGet (v : View) (it : Iterator) (entity : Entity)
    (c : ComponentTypeId) (stores : Stores V) : Result (V * Stores V) :=
  if decide (c = m_First v) then
    x ← ComponentArray.Iterator_deref (store stores (m_First v)) it;
    Ok (x, stores)
  else GetAsTuple c entity stores.

(** The loop of [Each]: one call of [func] per entity of the entity
    iterator, recorded as the entity and the component values it is applied
    to (the entity itself is passed only to a [func] that takes it). *)
Fixpoint Each_loop (v : View) (entityIt : EntityIterator) (compIt : Iterator)
    (stores : Stores V) : Result (list (Entity * list V) * Stores V) :=
  match entityIt with
  | [] => Ok ([], stores)
  | entity :: entityIt =>
      '(comps, stores) ← expand (DispatchGet v compIt entity) (m_Arrays v) stores;
      '(calls, stores) ←
        Each_loop v entityIt (ComponentArray.Iterator_incr compIt) stores;
      Ok ((entity, comps) :: calls, stores)
  end.

Definition Each (v : View) (stores : Stores V)
  : Result (list (Entity * list V) * Stores V) :=
  let arr := store stores (m_First v) in
  let compIt := ComponentArray.begin arr in
  Each_loop v (ComponentArray.BeginEntityIt arr) compIt stores.

End View.
End View.

(** ** Registry.hpp *)

Record Registry (V : Type) : Type := mkRegistry {
  m_AvailableEntities : list Entity;
  m_LivingEntityCount : N;
  m_ComponentArrays : Stores V
}.
Arguments mkRegistry {V}.
Arguments m_AvailableEntities {V}.
Arguments m_LivingEntityCount {V}.
Arguments m_ComponentArrays {V}.

(** The ids [start], [start + 1], ... ([len] of them). *)
Fixpoint seqN (start : N) (len : nat) : list N :=
  match len with
  | O => []
  | S len => start :: seqN (N.succ start) len
  end.

(** The loop of the constructor, [for (id = 0; id < MAX_ENTITIES; id++)
    m_AvailableEntities.push(id)], from the current [id] and queue on. *)
Fixpoint push_ids (fuel : nat) (id : Entity) (queue : list Entity) : list Entity :=
  match fuel with
  | O => queue
  | S fuel =>
      if decide (id < MAX_ENTITIES)
      then push_ids fuel (uint32_incr id) (queue ++ [id])
      else queue
  end.

Module Registry.
Section Registry.
Context {V : Type} `{!Inhabited V} `{!MapOrder}.

(** The registry after its constructor: the queue holds what the loop
    [push_ids] pushes, the ids [0 .. MAX_ENTITIES - 1] in increasing order
    (lemma [push_ids_seqN]). *)
Definition new : Registry V :=
  {| m_AvailableEntities := seqN 0 (N.to_nat MAX_ENTITIES);
     m_LivingEntityCount := 0;
     m_ComponentArrays := ∅ |}.

Definition CreateEntity (r : Registry V) : Result (Entity * Registry V) :=
  _ ← assert (bool_decide (m_LivingEntityCount r < MAX_ENTITIES))
        "Too many entities in existance.";
  match m_AvailableEntities r with
  | [] => Undefined
  | id :: queue =>
      Ok (id,
          {| m_AvailableEntities := queue;
             m_LivingEntityCount := uint32_incr (m_LivingEntityCount r);
             m_ComponentArrays := m_ComponentArrays r |})
  end.

(** [GetComponentArray<T>]: the store of the type, made on first use. *)
Definition GetComponentArray (c : ComponentTypeId) (r : Registry V)
  : ComponentArray V * Registry V :=
  match m_ComponentArrays r !! c with
  | Some arr => (arr, r)
  | None =>
      (ComponentArray.new,
       {| m_AvailableEntities := m_AvailableEntities r;
          m_LivingEntityCount := m_LivingEntityCount r;
          m_ComponentArrays := <[c := ComponentArray.new]> (m_ComponentArrays r) |})
  end.

(** The store of type [c] after a call that changed it in place. *)
Definition put (c : ComponentTypeId) (arr : ComponentArray V) (r : Registry V)
  : Registry V :=
  {| m_AvailableEntities := m_AvailableEntities r;
     m_LivingEntityCount := m_LivingEntityCount r;
     m_ComponentArrays := <[c := arr]> (m_ComponentArrays r) |}.

(** Every store is notified; a store touches its own state only. *)
Definition OnEntityDestroyed (entity : Entity) (r : Registry V)
  : Result (Registry V) :=
  stores ← map_fold
    (λ c arr acc,
       stores ← acc;
       arr ← ComponentArray.OnEntityDestroyed entity arr;
       Ok (<[c := arr]> stores))
    (Ok ∅) (m_ComponentArrays r);
  Ok {| m_AvailableEntities := m_AvailableEntities r;
        m_LivingEntityCount := m_LivingEntityCount r;
        m_ComponentArrays := stores |}.

Definition DestroyEntity (entity : Entity) (r : Registry V)
  : Result (Registry V) :=
  _ ← assert (bool_decide (entity < MAX_ENTITIES)) "Entity out of range.";
  r ← OnEntityDestroyed entity r;
  Ok {| m_AvailableEntities := m_AvailableEntities r ++ [entity];
        m_LivingEntityCount := uint32_decr (m_LivingEntityCount r);
        m_ComponentArrays := m_ComponentArrays r |}.

(** [AddComponent<T>(entity, args...)]; [x] is [T(args...)]. *)
Definition AddComponent (c : ComponentTypeId) (entity : Entity) (x : V)
    (r : Registry V) : Result (Index * Registry V) :=
  let '(arr, r) := GetComponentArray c r in
  '(slot, arr) ← ComponentArray.InsertData entity x arr;
  Ok (slot, put c arr r).

Definition GetComponent (c : ComponentTypeId) (entity : Entity) (r : Registry V)
  : Result (V * Registry V) :=
  let '(arr, r) := GetComponentArray c r in
  '(x, arr) ← ComponentArray.GetData entity arr;
  Ok (x, put c arr r).

Definition HasComponent (c : ComponentTypeId) (entity : Entity) (r : Registry V)
  : bool * Registry V :=
  let '(arr, r) := GetComponentArray c r in
  (ComponentArray.HasData entity arr, r).

Definition RemoveComponent (c : ComponentTypeId) (entity : Entity)
    (r : Registry V) : Result (Registry V) :=
  let '(arr, r) := GetComponentArray c r in
  arr ← ComponentArray.RemoveData entity arr;
  Ok (put c arr r).

(** [View<Components...>()]: the stores are looked up, or made, in the order
    of the template arguments. [OnConstruct] and [OnDestroy] are left out:
    they call [RegisterOnConstruct] and [RegisterOnDestroy], which
    [ComponentArray] does not declare. *)
Definition View (comps : list ComponentTypeId) (r : Registry V)
  : Result (View * Registry V) :=
  match comps with
  | [] => AssertionFailed "Cannot make a view with no components"
  | c :: cs =>
      Ok ({| m_First := c; m_Rest := cs |},
          foldl (λ r c, snd (GetComponentArray c r)) r comps)
  end.

End Registry.
End Registry.

(** ** Sequences of store operations and the abstract content of a store *)

Inductive Op (T : Type) : Type :=
| Insert (entity : Entity) (v : T)
| Remove (entity : Entity).
Arguments Insert {T} entity v.
Arguments Remove {T} entity.

Section Runs.
Context {T : Type} `{!Inhabited T}.

Definition apply_op (o : Op T) (s : ComponentArray T) : Result (ComponentArray T) :=
  match o with
  | Insert entity v => snd <$> ComponentArray.InsertData entity v s
  | Remove entity => ComponentArray.RemoveData entity s
  end.

(** The store after all the operations. *)
Fixpoint run (ops : list (Op T)) (s : ComponentArray T) : Result (ComponentArray T) :=
  match ops with
  | [] => Ok s
  | o :: ops => s ← apply_op o s; run ops s
  end.

(** The stores after each of the operations, in order. *)
Fixpoint trace (ops : list (Op T)) (s : ComponentArray T)
  : Result (list (ComponentArray T)) :=
  match ops with
  | [] => Ok []
  | o :: ops => s ← apply_op o s; rest ← trace ops s; Ok (s :: rest)
  end.

(** The number of [InsertData] calls and of [RemoveData] calls. *)
Fixpoint inserts (ops : list (Op T)) : N :=
  match ops with
  | [] => 0
  | Insert _ _ :: ops => 1 + inserts ops
  | Remove _ :: ops => inserts ops
  end.
Fixpoint removes (ops : list (Op T)) : N :=
  match ops with
  | [] => 0
  | Insert _ _ :: ops => removes ops
  | Remove _ :: ops => 1 + removes ops
  end.

(** The content of a store: the present entities and the value of each. *)
Definition content_op (o : Op T) (m : gmap Entity T) : gmap Entity T :=
  match o with
  | Insert entity v => <[entity := v]> m
  | Remove entity => delete entity m
  end.

Fixpoint content_trace (ops : list (Op T)) (m : gmap Entity T)
  : list (gmap Entity T) :=
  match ops with
  | [] => []
  | o :: ops => content_op o m :: content_trace ops (content_op o m)
  end.

(** Every insert is of an entity (an id below [MAX_ENTITIES]) that is not
    present, every remove of an entity that is. *)
Fixpoint admissible (ops : list (Op T)) (m : gmap Entity T) : Prop :=
  match ops with
  | [] => True
  | o :: ops =>
      match o with
      | Insert entity _ => m !! entity = None ∧ entity < MAX_ENTITIES
      | Remove entity => is_Some (m !! entity)
      end ∧ admissible ops (content_op o m)
  end.

(** The store [s] is packed and holds the content [m]. *)
Record packed (s : ComponentArray T) (m : gmap Entity T) : Prop := {
  packed_capacity : m_Size s ≤ MAX_ENTITIES;
  packed_count : N.of_nat (size (m_EntityToIndexMap s)) = m_Size s;
  packed_present : ∀ e, is_Some (m_EntityToIndexMap s !! e) ↔ is_Some (m !! e);
  packed_slots : ∀ i, is_Some (m_IndexToEntityMap s !! i) ↔ i < m_Size s;
  packed_inverse : ∀ e i,
    m_EntityToIndexMap s !! e = Some i ↔ m_IndexToEntityMap s !! i = Some e;
  packed_values : ∀ e i,
    m_EntityToIndexMap s !! e = Some i → m !! e = Some (m_ComponentArray s i);
  packed_entities : ∀ e, is_Some (m !! e) → e < MAX_ENTITIES
}.

End Runs.

(** ** Concrete stores and registries, the instances of the statements below *)

Definition two_entities : ComponentArray N :=
  {| m_ComponentArray := <[1 := 20]> (<[0 := 10]> (λ _, inhabitant));
     m_EntityToIndexMap := <[5 := 1]> (<[3 := 0]> ∅);
     m_IndexToEntityMap := <[1 := 5]> (<[0 := 3]> ∅);
     m_Size := 2 |}.

Definition two_entities_content : gmap Entity N := <[5 := 20]> (<[3 := 10]> ∅).

(** A registry of three entities, two of them living and holding a component
    of type 0 and a component of type 1 each. *)
Definition two_stores : Registry N :=
  {| m_AvailableEntities := [7];
     m_LivingEntityCount := 2;
     m_ComponentArrays := <[1 := two_entities]> (<[0 := two_entities]> ∅) |}.

(** ** Programs over the registry *)

(** The component types of the example of [README.md]. They are the value
    universe of its registry. [GetComponentTypeId] numbers the types in the
    order of their first use: [UUIDComponent], [TagComponent],
    [PointComponent]. *)
Inductive Component : Type :=
| UUIDComponent (Id : N)
| TagComponent (Name : string)
| PointComponent (X Y : Z).

#[global] Instance Component_inhabited : Inhabited Component :=
  populate (UUIDComponent 0).

Definition UUID : ComponentTypeId := 0.
Definition TAG : ComponentTypeId := 1.
Definition POINT : ComponentTypeId := 2.

(** [n] calls of [CreateEntity], with the ids they return. *)
Fixpoint create_many {V : Type} (n : nat) (r : Registry V)
  : Result (list Entity * Registry V) :=
  match n with
  | O => Ok ([], r)
  | S n =>
      '(id, r) ← Registry.CreateEntity r;
      '(ids, r) ← create_many n r;
      Ok (id :: ids, r)
  end.

(** Scenario 1, the [main] of [README.md] up to its first [Each]: two
    entities with the three components each and the view on the three
    types. [scenario1] returns the calls of the callback of [Each]. *)
Definition setup1 (uuid1 uuid2 tag1 tag2 point1 point2 : Component)
  : Result (Entity * Entity * View * Registry Component) :=
  '(entity1, r) ← Registry.CreateEntity Registry.new;
  '(entity2, r) ← Registry.CreateEntity r;
  '(_, r) ← Registry.AddComponent UUID entity1 uuid1 r;
  '(_, r) ← Registry.AddComponent TAG entity1 tag1 r;
  '(_, r) ← Registry.AddComponent POINT entity1 point1 r;
  '(_, r) ← Registry.AddComponent UUID entity2 uuid2 r;
  '(_, r) ← Registry.AddComponent TAG entity2 tag2 r;
  '(_, r) ← Registry.AddComponent POINT entity2 point2 r;
  '(view, r) ← Registry.View [UUID; TAG; POINT] r;
  Ok (entity1, entity2, view, r).

Definition scenario1 {order : MapOrder}
    (uuid1 uuid2 tag1 tag2 point1 point2 : Component)
  : Result (Entity * Entity * list (Entity * list Component)) :=
  '(entity1, entity2, view, r) ← setup1 uuid1 uuid2 tag1 tag2 point1 point2;
  '(calls, _) ← View.Each view (m_ComponentArrays r);
  Ok (entity1, entity2, calls).

(** Scenario 2: three entities, a tag on the first two, and the view on the
    tags. *)
Definition setup2 (tag1 tag2 : Component)
  : Result (Entity * Entity * Entity * View * Registry Component) :=
  '(entity1, r) ← Registry.CreateEntity Registry.new;
  '(entity2, r) ← Registry.CreateEntity r;
  '(entity3, r) ← Registry.CreateEntity r;
  '(_, r) ← Registry.AddComponent TAG entity1 tag1 r;
  '(_, r) ← Registry.AddComponent TAG entity2 tag2 r;
  '(view, r) ← Registry.View [TAG] r;
  Ok (entity1, entity2, entity3, view, r).

(** A view on the types 0 and 1 over stores of which the second is empty. *)
Definition first_store_only : Stores N :=
  <[1 := ComponentArray.new]> (<[0 := two_entities]> ∅).


(** ** The value a lookup reads *)

(** The value [GetData] reads for [entity]: the slot the entity index gives,
    slot 0 for an entity without an entry. *)
Definition stored {T : Type} (s : ComponentArray T) (entity : Entity) : T :=
  m_ComponentArray s (default 0 (m_EntityToIndexMap s !! entity)).

(** ** The allocator and the living entities *)

(** The allocator of the registry [r] serves the living entities [live]: the
    queue holds every id below [MAX_ENTITIES] that does not live, once; the
    counter is the number of living entities; the stores are packed. *)
Record allocator_ok {V : Type} (r : Registry V) (live : gset Entity) : Prop := {
  alloc_count : m_LivingEntityCount r = N.of_nat (size live);
  alloc_total :
    m_LivingEntityCount r + N.of_nat (length (m_AvailableEntities r))
      = MAX_ENTITIES;
  alloc_nodup : NoDup (m_AvailableEntities r);
  alloc_free : ∀ id, id ∈ m_AvailableEntities r ↔ id < MAX_ENTITIES ∧ id ∉ live;
  alloc_live : ∀ id, id ∈ live → id < MAX_ENTITIES;
  alloc_stores : ∀ c s, m_ComponentArrays r !! c = Some s → ∃ m, packed s m
}.

(** Every id below [MAX_ENTITIES], and a registry in which all of them live:
    the queue is empty and the counter is [MAX_ENTITIES]. *)
Definition every_id : gset Entity := list_to_set (seqN 0 (N.to_nat MAX_ENTITIES)).

Definition all_living : Registry N :=
  {| m_AvailableEntities := [];
     m_LivingEntityCount := MAX_ENTITIES;
     m_ComponentArrays := <[0 := two_entities]> ∅ |}.

(** ** Arithmetic of the unsigned types *)

Lemma MAX_ENTITIES_uint32 : MAX_ENTITIES < 2 ^ 32.
Proof. reflexivity. Qed.

Lemma MAX_ENTITIES_size_t : MAX_ENTITIES < 2 ^ 64.
Proof. reflexivity. Qed.

Lemma size_t_incr_small n : n < MAX_ENTITIES → size_t_incr n = n + 1.
Proof.
  intros Hn. unfold size_t_incr, size_t_wrap. apply N.mod_small.
  pose proof MAX_ENTITIES_size_t. lia.
Qed.

Lemma size_t_decr_pos n : 0 < n → n ≤ MAX_ENTITIES → size_t_decr n = n - 1.
Proof.
  intros Hpos Hn. unfold size_t_decr, size_t_wrap.
  pose proof MAX_ENTITIES_size_t as HM. revert HM.
  generalize (2 ^ 64). intros M HM.
  replace (n + M - 1) with ((n - 1) + 1 * M) by lia.
  rewrite N.Div0.mod_add. apply N.mod_small. lia.
Qed.

Lemma size_t_decr_zero : size_t_decr 0 = 2 ^ 64 - 1.
Proof. reflexivity. Qed.

Lemma size_t_decr_bound n :
  n < 2 ^ 64 → size_t_decr n < MAX_ENTITIES → 0 < n ∧ size_t_decr n = n - 1.
Proof.
  intros Hn Hlt. destruct (decide (n = 0)) as [->|Hne].
  - rewrite size_t_decr_zero in Hlt. exfalso. revert Hlt. by vm_compute.
  - split; [lia|]. unfold size_t_decr, size_t_wrap. revert Hn.
    generalize (2 ^ 64). intros M HM.
    replace (n + M - 1) with ((n - 1) + 1 * M) by lia.
    rewrite N.Div0.mod_add. apply N.mod_small. lia.
Qed.

Lemma uint32_incr_small n : n < MAX_ENTITIES → uint32_incr n = n + 1.
Proof.
  intros Hn. unfold uint32_incr, uint32_wrap. apply N.mod_small.
  pose proof MAX_ENTITIES_uint32. lia.
Qed.

Lemma uint32_decr_pos n : 0 < n → n ≤ MAX_ENTITIES → uint32_decr n = n - 1.
Proof.
  intros Hpos Hn. unfold uint32_decr, uint32_wrap.
  pose proof MAX_ENTITIES_uint32 as HM. revert HM.
  generalize (2 ^ 32). intros M HM.
  replace (n + M - 1) with ((n - 1) + 1 * M) by lia.
  rewrite N.Div0.mod_add. apply N.mod_small. lia.
Qed.

(** ** Counting ids *)

Lemma elem_of_seqN x a n : x ∈ seqN a n ↔ a ≤ x ∧ x < a + N.of_nat n.
Proof.
  revert a. induction n as [|n IH]; intros a; simpl.
  - rewrite elem_of_nil. lia.
  - rewrite elem_of_cons, IH. lia.
Qed.

Lemma length_seqN a n : length (seqN a n) = n.
Proof. revert a. induction n as [|n IH]; intros a; simpl; [done|]. by rewrite IH. Qed.

Lemma NoDup_seqN a n : NoDup (seqN a n).
Proof.
  revert a. induction n as [|n IH]; intros a; simpl; constructor; [|done].
  rewrite elem_of_seqN. lia.
Qed.

Lemma seqN_app a n k : seqN a (n + k) = seqN a n ++ seqN (a + N.of_nat n) k.
Proof.
  revert a. induction n as [|n IH]; intros a; simpl.
  - by rewrite N.add_0_r.
  - rewrite IH. do 3 f_equal. lia.
Qed.

(** Ids below [n], all different and none of them [e], are fewer than [n]. *)
Lemma pigeonhole (l : list N) (n e : N) :
  NoDup l → (∀ x, x ∈ l → x < n) → e < n → e ∉ l →
  N.of_nat (length l) < n.
Proof.
  intros Hnd Hlt He Hnotin.
  assert (e :: l ⊆+ seqN 0 (N.to_nat n)) as Hsub.
  { apply NoDup_submseteq; [by constructor|].
    intros x [->|Hx]%elem_of_cons; apply elem_of_seqN; [lia|].
    specialize (Hlt x Hx). lia. }
  apply submseteq_length in Hsub. rewrite length_seqN in Hsub. simpl in Hsub. lia.
Qed.

Lemma elem_of_map_keys {A} (m : gmap N A) x :
  x ∈ (map_to_list m).*1 ↔ is_Some (m !! x).
Proof.
  rewrite list_elem_of_fmap. split.
  - intros [[k a] [-> Hin]]. apply elem_of_map_to_list in Hin. by exists a.
  - intros [a Ha]. exists (x, a). split; [done|]. by apply elem_of_map_to_list.
Qed.

(** A map whose keys are below [n] and that misses some id below [n] has
    fewer than [n] entries. *)
Lemma map_size_below {A} (m : gmap N A) (n e : N) :
  (∀ x, is_Some (m !! x) → x < n) → e < n → m !! e = None →
  N.of_nat (size m) < n.
Proof.
  intros Hlt He Hnone.
  rewrite <- length_map_to_list, <- (length_fmap fst).
  apply (pigeonhole _ n e); [apply NoDup_fst_map_to_list| |done|].
  - intros x Hx. apply Hlt. by apply elem_of_map_keys.
  - rewrite elem_of_map_keys, Hnone. by intros [? ?].
Qed.

(** ** The operations of a store, one by one *)

Section StoreFacts.
Context {T : Type} `{!Inhabited T}.
Implicit Types (s : ComponentArray T) (m : gmap Entity T) (e : Entity).

Lemma subscript_Some (mp : gmap N N) k x :
  mp !! k = Some x → subscript mp k = (x, mp).
Proof. intros H. unfold subscript. by rewrite H. Qed.

Lemma subscript_None (mp : gmap N N) k :
  mp !! k = None → subscript mp k = (0, <[k := 0]> mp).
Proof. intros H. unfold subscript. by rewrite H. Qed.

Lemma array_read_Ok (a : Index → T) i :
  i < MAX_ENTITIES → ComponentArray.array_read a i = Ok (a i).
Proof. intros H. unfold ComponentArray.array_read. by rewrite decide_True. Qed.

Lemma array_write_Ok (a : Index → T) i v :
  i < MAX_ENTITIES → ComponentArray.array_write a i v = Ok (<[i := v]> a).
Proof. intros H. unfold ComponentArray.array_write. by rewrite decide_True. Qed.

Lemma InsertData_Ok e v s :
  m_Size s < MAX_ENTITIES →
  ComponentArray.InsertData e v s =
    Ok (m_Size s,
        {| m_ComponentArray := <[m_Size s := v]> (m_ComponentArray s);
           m_EntityToIndexMap := <[e := m_Size s]> (m_EntityToIndexMap s);
           m_IndexToEntityMap := <[m_Size s := e]> (m_IndexToEntityMap s);
           m_Size := m_Size s + 1 |}).
Proof.
  intros H. unfold ComponentArray.InsertData.
  rewrite array_write_Ok by done. simpl. by rewrite size_t_incr_small.
Qed.

Lemma InsertData_Undefined e v s :
  MAX_ENTITIES ≤ m_Size s → ComponentArray.InsertData e v s = Undefined.
Proof.
  intros H. unfold ComponentArray.InsertData, ComponentArray.array_write.
  rewrite decide_False by lia. done.
Qed.

(** [RemoveData] of a present entity in a store whose last slot is
    recorded in [m_IndexToEntityMap]. *)
Lemma RemoveData_Ok e i last s :
  m_EntityToIndexMap s !! e = Some i →
  i < MAX_ENTITIES → 0 < m_Size s → m_Size s ≤ MAX_ENTITIES →
  m_IndexToEntityMap s !! (m_Size s - 1) = Some last →
  ComponentArray.RemoveData e s =
    Ok {| m_ComponentArray :=
            <[i := m_ComponentArray s (m_Size s - 1)]> (m_ComponentArray s);
          m_EntityToIndexMap := delete e (<[last := i]> (m_EntityToIndexMap s));
          m_IndexToEntityMap :=
            delete (m_Size s - 1) (<[i := last]> (m_IndexToEntityMap s));
          m_Size := m_Size s - 1 |}.
Proof.
  intros He Hi Hpos Hcap Hlast. unfold ComponentArray.RemoveData.
  rewrite (subscript_Some _ _ _ He), size_t_decr_pos by done.
  rewrite array_read_Ok by lia. simpl.
  rewrite array_write_Ok by done. simpl.
  by rewrite (subscript_Some _ _ _ Hlast).
Qed.

Lemma HasData_true e s :
  ComponentArray.HasData e s = true ↔ is_Some (m_EntityToIndexMap s !! e).
Proof. unfold ComponentArray.HasData. apply bool_decide_eq_true. Qed.

Lemma HasData_false e s :
  ComponentArray.HasData e s = false ↔ m_EntityToIndexMap s !! e = None.
Proof.
  unfold ComponentArray.HasData. rewrite bool_decide_eq_false.
  by rewrite eq_None_not_Some.
Qed.

Lemma GetData_Ok e i s :
  m_EntityToIndexMap s !! e = Some i → i < MAX_ENTITIES →
  ComponentArray.GetData e s = Ok (m_ComponentArray s i, s).
Proof.
  intros He Hi. unfold ComponentArray.GetData.
  rewrite (subscript_Some _ _ _ He), array_read_Ok by done. simpl.
  by destruct s.
Qed.

(** *** The packing invariant *)

Lemma packed_new : packed (ComponentArray.new (T := T)) ∅.
Proof.
  split; simpl.
  - unfold MAX_ENTITIES. lia.
  - by rewrite map_size_empty.
  - intros e. by rewrite !lookup_empty.
  - intros i. rewrite lookup_empty. split; [by intros [? ?]|lia].
  - intros e i. by rewrite !lookup_empty.
  - intros e i. by rewrite lookup_empty.
  - intros e. rewrite lookup_empty. by intros [? ?].
Qed.

Lemma packed_slot_bound s m e i :
  packed s m → m_EntityToIndexMap s !! e = Some i → i < m_Size s.
Proof.
  intros Hp He. apply (packed_slots _ _ Hp).
  apply (packed_inverse _ _ Hp) in He. by exists e.
Qed.

(** A store that misses an entity is not full. *)
Lemma packed_room s m e :
  packed s m → m !! e = None → e < MAX_ENTITIES → m_Size s < MAX_ENTITIES.
Proof.
  intros Hp Hnone He. rewrite <- (packed_count _ _ Hp).
  apply (map_size_below _ _ e); [|done|].
  - intros x Hx. apply (packed_entities _ _ Hp), (packed_present _ _ Hp), Hx.
  - apply eq_None_not_Some. rewrite (packed_present _ _ Hp).
    by rewrite Hnone; intros [? ?].
Qed.

Lemma packed_insert s m e v :
  packed s m → m !! e = None → e < MAX_ENTITIES →
  ∃ s', ComponentArray.InsertData e v s = Ok (m_Size s, s') ∧
        m_Size s' = m_Size s + 1 ∧
        packed s' (<[e := v]> m).
Proof.
  intros Hp Hnone He.
  pose proof (packed_room _ _ _ Hp Hnone He) as Hroom.
  assert (m_EntityToIndexMap s !! e = None) as Habs.
  { apply eq_None_not_Some. rewrite (packed_present _ _ Hp), Hnone.
    by intros [? ?]. }
  eexists. split; [by apply InsertData_Ok|]. split; [done|].
  destruct Hp as [Hcap Hcnt Hpres Hslots Hinv Hvals Hents].
  split; simpl.
  - lia.
  - rewrite map_size_insert_None by done. lia.
  - intros x. rewrite !lookup_insert_is_Some. by rewrite Hpres.
  - intros i. rewrite lookup_insert_is_Some, Hslots. lia.
  - intros x i. rewrite !lookup_insert.
    destruct (decide (e = x)) as [->|Hx], (decide (m_Size s = i)) as [<-|Hi].
    + done.
    + split; [congruence|]. intros Hix. apply Hinv in Hix. congruence.
    + split; [|congruence]. intros Hxi.
      assert (m_Size s < m_Size s); [|lia].
      apply Hslots. apply Hinv in Hxi. eauto.
    + apply Hinv.
  - intros x i. rewrite !lookup_insert.
    destruct (decide (e = x)) as [->|Hx].
    + intros [= <-]. by rewrite fn_lookup_insert.
    + intros Hxi. rewrite fn_lookup_insert_ne; [by apply Hvals|].
      intros <-. assert (m_Size s < m_Size s); [|lia].
      apply Hslots. apply Hinv in Hxi. eauto.
  - intros x. rewrite lookup_insert_is_Some. intros [<-|[_ Hx]]; auto.
Qed.

Lemma packed_remove s m e :
  packed s m → is_Some (m !! e) →
  ∃ s', ComponentArray.RemoveData e s = Ok s' ∧
        m_Size s' = m_Size s - 1 ∧
        packed s' (delete e m).
Proof.
  intros Hp Hsome.
  destruct (proj2 (packed_present _ _ Hp e) Hsome) as [i He].
  pose proof (packed_slot_bound _ _ _ _ Hp He) as Hi.
  destruct Hp as [Hcap Hcnt Hpres Hslots Hinv Hvals Hents].
  destruct (proj2 (Hslots (m_Size s - 1))) as [last Hlast]; [lia|].
  pose proof (proj2 (Hinv _ _) Hlast) as Hlast'.
  pose proof (proj1 (Hinv _ _) He) as He'.
  eexists. split; [apply (RemoveData_Ok e i last); [done|lia|lia|done|done]|].
  split; [done|].
  split; simpl.
  - lia.
  - rewrite map_size_delete_Some, map_size_insert_Some by
      (rewrite ?lookup_insert_is_Some; destruct (decide (last = e)); eauto).
    assert (size (m_EntityToIndexMap s) ≠ 0%nat) by lia. lia.
  - intros x. rewrite !lookup_delete_is_Some, lookup_insert_is_Some, Hpres.
    split.
    + intros [Hx [<-|[_ ?]]]; [|done]. split; [done|]. apply Hpres. eauto.
    + intros [Hx ?]. split; [done|]. destruct (decide (last = x)); auto.
  - intros j. rewrite lookup_delete_is_Some, lookup_insert_is_Some, Hslots.
    split; [|intros Hj; split; [lia|]; destruct (decide (i = j)); [auto|right; split; [done|lia]]].
    intros [Hj [<-|[_ ?]]]; lia.
  - intros x j. rewrite !lookup_delete, !lookup_insert.
    repeat case_decide; simplify_eq; try done;
      (split; intros HH; try done; try (injection HH as HH);
       try (apply Hinv in HH); congruence).
  - intros x j. rewrite !lookup_delete, !lookup_insert.
    repeat case_decide; simplify_eq; try done.
    + intros [= <-]. rewrite fn_lookup_insert. by apply Hvals.
    + intros Hx. rewrite fn_lookup_insert_ne; [by apply Hvals|].
      intros <-. apply Hinv in Hx. congruence.
  - intros x. rewrite lookup_delete_is_Some. intros [_ ?]. auto.
Qed.

End StoreFacts.

(** ** Runs of admissible operations *)

Section RunFacts.
Context {T : Type} `{!Inhabited T}.
Implicit Types (s : ComponentArray T) (m : gmap Entity T) (ops : list (Op T)).

Lemma packed_apply_op o s m :
  packed s m → admissible [o] m →
  ∃ s', apply_op o s = Ok s' ∧ packed s' (content_op o m).
Proof.
  intros Hp [Ho _]. destruct o as [e v|e]; simpl in *.
  - destruct Ho as [Hnone He].
    destruct (packed_insert s m e v Hp Hnone He) as (s' & Hins & _ & Hp').
    exists s'. by rewrite Hins.
  - destruct (packed_remove s m e Hp Ho) as (s' & Hrem & _ & Hp'). eauto.
Qed.

Lemma packed_trace ops s m :
  packed s m → admissible ops m →
  ∃ states, trace ops s = Ok states ∧
            Forall2 packed states (content_trace ops m).
Proof.
  revert s m. induction ops as [|o ops IH]; intros s m Hp Hadm; simpl.
  - exists []. by split.
  - destruct Hadm as [Ho Hadm].
    destruct (packed_apply_op o s m Hp) as (s' & Hs' & Hp'); [by split|].
    destruct (IH s' _ Hp' Hadm) as (states & Hst & Hall).
    exists (s' :: states). rewrite Hs'. simpl. rewrite Hst. simpl.
    split; [done|]. by constructor.
Qed.

Lemma packed_run ops s m :
  packed s m → admissible ops m →
  ∃ s', run ops s = Ok s' ∧ packed s' (foldl (λ m o, content_op o m) m ops).
Proof.
  revert s m. induction ops as [|o ops IH]; intros s m Hp Hadm; simpl.
  - eauto.
  - destruct Hadm as [Ho Hadm].
    destruct (packed_apply_op o s m Hp) as (s' & Hs' & Hp'); [by split|].
    rewrite Hs'. simpl. by apply IH.
Qed.

End RunFacts.

(** ** The store of two entities *)

Lemma two_entities_run :
  run [Insert 3 10; Insert 5 20] ComponentArray.new = Ok two_entities.
Proof. reflexivity. Qed.

Lemma two_entities_packed : packed two_entities two_entities_content.
Proof.
  destruct (packed_run [Insert 3 10; Insert 5 20] ComponentArray.new ∅)
    as (s' & Hrun & Hp).
  - apply packed_new.
  - repeat split; reflexivity.
  - rewrite two_entities_run in Hrun. by injection Hrun as <-.
Qed.

(** ** Properties of the component store *)

(** C2. In a run of store operations from the empty store, in which every
    insert is of an entity not present and every remove of an entity that is
    present, every operation returns and after each one the store is packed:
    the occupied slots are exactly [0, m_Size), the two index maps are mutual
    inverses, the present entities are those of the content and every slot
    holds the value of its entity. *)
Theorem C2_packed_after_every_operation {T : Type} `{!Inhabited T}
    (ops : list (Op T)) :
  admissible ops ∅ →
  ∃ states, trace ops (ComponentArray.new (T := T)) = Ok states ∧
            Forall2 packed states (content_trace ops ∅).
Proof. apply packed_trace, packed_new. Qed.

Lemma C2_packed_after_every_operation_witness :
  admissible [Insert 3 10; Insert 5 20; Remove 3] (∅ : gmap Entity N) ∧
  ∃ states,
    trace [Insert 3 10; Insert 5 20; Remove 3] ComponentArray.new = Ok states ∧
    Forall2 packed states (content_trace [Insert 3 10; Insert 5 20; Remove 3] ∅).
Proof.
  assert (admissible [Insert 3 10; Insert 5 20; Remove 3] (∅ : gmap Entity N)) as H.
  { repeat split; try reflexivity. by exists 10. }
  split; [exact H|]. exact (C2_packed_after_every_operation _ H).
Defined.

(** C4. Removing a present entity [E] whose slot [i] is not the last occupied
    one copies the value of the last slot into slot [i], makes both index maps
    record the previously last entity at slot [i], erases the entry of [E]
    and the entry of the old last slot, and decrements [m_Size]; afterwards
    [HasData E] is false and [GetData] of the previously last entity returns
    its value, now read from slot [i]. *)
Theorem C4_swap_remove {T : Type} `{!Inhabited T}
    (s : ComponentArray T) (m : gmap Entity T) (E last : Entity) (i : Index) :
  packed s m →
  m_EntityToIndexMap s !! E = Some i →
  i ≠ m_Size s - 1 →
  m_IndexToEntityMap s !! (m_Size s - 1) = Some last →
  ∃ s', ComponentArray.RemoveData E s = Ok s' ∧
        m_ComponentArray s' i = m_ComponentArray s (m_Size s - 1) ∧
        m_EntityToIndexMap s' !! last = Some i ∧
        m_IndexToEntityMap s' !! i = Some last ∧
        m_EntityToIndexMap s' !! E = None ∧
        m_IndexToEntityMap s' !! (m_Size s - 1) = None ∧
        m_Size s' = m_Size s - 1 ∧
        ComponentArray.HasData E s' = false ∧
        ∃ v, m !! last = Some v ∧ ComponentArray.GetData last s' = Ok (v, s').
Proof.
  intros Hp HE Hi Hlast.
  pose proof (packed_slot_bound _ _ _ _ Hp HE) as Hbound.
  pose proof (packed_capacity _ _ Hp) as Hcap.
  pose proof (proj2 (packed_inverse _ _ Hp _ _) Hlast) as Hlast'.
  assert (last ≠ E) as Hne by congruence.
  assert (m_EntityToIndexMap
            (mkComponentArray
               (<[i := m_ComponentArray s (m_Size s - 1)]> (m_ComponentArray s))
               (delete E (<[last := i]> (m_EntityToIndexMap s)))
               (delete (m_Size s - 1) (<[i := last]> (m_IndexToEntityMap s)))
               (m_Size s - 1)) !! last = Some i) as Hnew.
  { simpl. rewrite lookup_delete_ne by done. apply lookup_insert_eq. }
  eexists. split; [apply (RemoveData_Ok E i last); [done|lia|lia|done|done]|].
  simpl. repeat split.
  - apply fn_lookup_insert.
  - exact Hnew.
  - rewrite lookup_delete_ne by done. apply lookup_insert_eq.
  - apply lookup_delete_eq.
  - apply lookup_delete_eq.
  - apply HasData_false. simpl. apply lookup_delete_eq.
  - exists (m_ComponentArray s (m_Size s - 1)). split.
    + by apply (packed_values _ _ Hp).
    + rewrite (GetData_Ok _ _ _ Hnew) by lia. simpl.
      by rewrite fn_lookup_insert.
Qed.

Lemma C4_swap_remove_witness :
  ∃ s', ComponentArray.RemoveData 3 two_entities = Ok s' ∧
        m_ComponentArray s' 0 = m_ComponentArray two_entities (m_Size two_entities - 1) ∧
        m_EntityToIndexMap s' !! 5 = Some 0 ∧
        m_IndexToEntityMap s' !! 0 = Some 5 ∧
        m_EntityToIndexMap s' !! 3 = None ∧
        m_IndexToEntityMap s' !! (m_Size two_entities - 1) = None ∧
        m_Size s' = m_Size two_entities - 1 ∧
        ComponentArray.HasData 3 s' = false ∧
        ∃ v, two_entities_content !! 5 = Some v ∧
             ComponentArray.GetData 5 s' = Ok (v, s').
Proof.
  apply (C4_swap_remove two_entities two_entities_content 3 5 0).
  - exact two_entities_packed.
  - reflexivity.
  - vm_compute. discriminate.
  - reflexivity.
Defined.

(** C1, as the code has it. An insert of an entity that is already present
    does not write the slot the entity has: it writes a new slot at index
    [m_Size], points [m_EntityToIndexMap] of the entity to the new slot and
    increments [m_Size]. The old slot keeps its value and its entry in
    [m_IndexToEntityMap], so the entity has two slots. [GetData] returns the
    new value. *)
Theorem C1_second_insert_appends {T : Type} `{!Inhabited T}
    (s : ComponentArray T) (e : Entity) (i : Index) (v2 : T) :
  m_EntityToIndexMap s !! e = Some i →
  i < m_Size s →
  m_Size s < MAX_ENTITIES →
  ∃ s2, ComponentArray.InsertData e v2 s = Ok (m_Size s, s2) ∧
        ComponentArray.GetData e s2 = Ok (v2, s2) ∧
        m_Size s2 = m_Size s + 1 ∧
        m_ComponentArray s2 i = m_ComponentArray s i ∧
        m_IndexToEntityMap s2 !! i = m_IndexToEntityMap s !! i ∧
        m_IndexToEntityMap s2 !! m_Size s = Some e.
Proof.
  intros He Hi Hroom.
  eexists. split; [by apply InsertData_Ok|].
  split; [|repeat split; simpl].
  - erewrite GetData_Ok; [|simpl; apply lookup_insert_eq|done].
    simpl. by rewrite fn_lookup_insert.
  - apply fn_lookup_insert_ne. lia.
  - apply lookup_insert_ne. lia.
  - apply lookup_insert_eq.
Qed.

Lemma C1_second_insert_appends_witness :
  ∃ s2, ComponentArray.InsertData 3 30 two_entities = Ok (2, s2) ∧
        ComponentArray.GetData 3 s2 = Ok (30, s2) ∧
        m_Size s2 = 3 ∧
        m_ComponentArray s2 0 = 10 ∧
        m_IndexToEntityMap s2 !! 0 = Some 3 ∧
        m_IndexToEntityMap s2 !! 2 = Some 3.
Proof.
  apply (C1_second_insert_appends two_entities 3 0 30); reflexivity.
Defined.

(** C1, as the specification states it, fails: on the empty store
    [insert(7, 1); insert(7, 2)] leaves [m_Size] at 2, not at 1, and both
    slot 0 and slot 1 belong to entity 7. *)
Lemma C1_size_unchanged_counterexample :
  ∃ s1 s2 : ComponentArray N,
    ComponentArray.InsertData 7 1 ComponentArray.new = Ok (0, s1) ∧
    ComponentArray.HasData 7 s1 = true ∧
    ComponentArray.InsertData 7 2 s1 = Ok (1, s2) ∧
    (fst <$> ComponentArray.GetData 7 s2) = Ok 2 ∧
    m_Size s1 = 1 ∧ m_Size s2 = 2 ∧ m_Size s2 ≠ m_Size s1 ∧
    m_IndexToEntityMap s2 !! 0 = Some 7 ∧
    m_IndexToEntityMap s2 !! 1 = Some 7 ∧
    m_ComponentArray s2 0 = 1.
Proof.
  do 2 eexists. split; [reflexivity|]. split; [reflexivity|].
  split; [reflexivity|]. repeat split. vm_compute. discriminate.
Qed.

(** ** Any run of inserts and removes, admissible or not *)

Section Sizes.
Context {T : Type} `{!Inhabited T}.
Implicit Types (s : ComponentArray T) (ops : list (Op T)).

Lemma InsertData_inv e v s slot s' :
  ComponentArray.InsertData e v s = Ok (slot, s') →
  m_Size s < MAX_ENTITIES ∧ slot = m_Size s ∧
  m_ComponentArray s' (m_Size s) = v ∧ m_Size s' = m_Size s + 1.
Proof.
  intros H. destruct (decide (m_Size s < MAX_ENTITIES)) as [Hlt|Hge].
  - rewrite InsertData_Ok in H by done. injection H as <- <-. simpl.
    by rewrite fn_lookup_insert.
  - rewrite InsertData_Undefined in H by lia. discriminate.
Qed.

Lemma RemoveData_inv e s s' :
  ComponentArray.RemoveData e s = Ok s' → m_Size s ≤ MAX_ENTITIES →
  0 < m_Size s ∧ m_Size s' = m_Size s - 1.
Proof.
  unfold ComponentArray.RemoveData. intros H Hcap.
  destruct (subscript (m_EntityToIndexMap s) e) as [i e2i].
  unfold ComponentArray.array_read in H.
  destruct (decide (size_t_decr (m_Size s) < MAX_ENTITIES)) as [Hlt|]; [|done].
  simpl in H.
  destruct (ComponentArray.array_write _ _ _) as [arr| |]; [|done..].
  simpl in H.
  destruct (subscript (m_IndexToEntityMap s) _) as [last i2e].
  injection H as <-. simpl.
  apply size_t_decr_bound in Hlt as [Hpos Heq]; [by rewrite Heq|].
  pose proof MAX_ENTITIES_size_t. lia.
Qed.

Lemma run_size ops s s' :
  run ops s = Ok s' → m_Size s ≤ MAX_ENTITIES →
  m_Size s' ≤ MAX_ENTITIES ∧
  m_Size s' + removes ops = m_Size s + inserts ops.
Proof.
  revert s. induction ops as [|o ops IH]; intros s Hrun Hcap; simpl in *.
  - injection Hrun as <-. lia.
  - destruct (apply_op o s) as [s1| |] eqn:Ho; [|done..]. simpl in Hrun.
    destruct o as [e v|e]; simpl in Ho.
    + destruct (ComponentArray.InsertData e v s) as [[slot s1']| |] eqn:Hins;
        [|done..].
      injection Ho as ->. apply InsertData_inv in Hins as (Hlt & _ & _ & Hsz).
      destruct (IH s1 Hrun) as [Hcap' Heq]; lia.
    + apply RemoveData_inv in Ho as [Hpos Hsz]; [|done].
      destruct (IH s1 Hrun) as [Hcap' Heq]; lia.
Qed.

End Sizes.

(** C9. [InsertData] has no capacity check. After any sequence of
    [InsertData] and [RemoveData] calls that all returned, [m_Size] is the
    number of inserts minus the number of removes; the next [InsertData], of
    a present entity or of an absent one, writes slot [m_Size] and increments
    [m_Size] when that number is below [MAX_ENTITIES], and is an access
    outside the array otherwise. *)
Theorem C9_insert_without_capacity_check {T : Type} `{!Inhabited T}
    (ops : list (Op T)) (s : ComponentArray T) (e : Entity) (v : T) :
  run ops ComponentArray.new = Ok s →
  removes ops ≤ inserts ops ∧
  m_Size s = inserts ops - removes ops ∧
  (inserts ops - removes ops < MAX_ENTITIES →
     ∃ s', ComponentArray.InsertData e v s = Ok (m_Size s, s') ∧
           m_ComponentArray s' (m_Size s) = v ∧
           m_Size s' = m_Size s + 1) ∧
  (¬ inserts ops - removes ops < MAX_ENTITIES →
     ComponentArray.InsertData e v s = Undefined).
Proof.
  intros Hrun. apply run_size in Hrun as [Hcap Heq]; [|simpl; done].
  simpl in Heq. split; [lia|]. split; [lia|]. split.
  - intros Hlt. eexists. split; [apply InsertData_Ok; lia|].
    simpl. split; [apply fn_lookup_insert|done].
  - intros Hge. apply InsertData_Undefined. lia.
Qed.

Lemma C9_insert_without_capacity_check_witness :
  removes [Insert 3 10; Insert 5 20] ≤ inserts [Insert 3 10; Insert 5 20] ∧
  m_Size two_entities =
    inserts [Insert 3 10; Insert 5 20] - removes [Insert 3 10; Insert 5 20] ∧
  (inserts [Insert 3 10; Insert 5 20] - removes [Insert 3 10; Insert 5 20]
     < MAX_ENTITIES →
     ∃ s', ComponentArray.InsertData 3 30 two_entities
             = Ok (m_Size two_entities, s') ∧
           m_ComponentArray s' (m_Size two_entities) = 30 ∧
           m_Size s' = m_Size two_entities + 1) ∧
  (¬ inserts [Insert 3 10; Insert 5 20] - removes [Insert 3 10; Insert 5 20]
     < MAX_ENTITIES →
     ComponentArray.InsertData 3 30 two_entities = Undefined).
Proof.
  apply (C9_insert_without_capacity_check [Insert 3 10; Insert 5 20]).
  reflexivity.
Defined.

(** ** The component iterator *)

Lemma seqN_snoc a n : seqN a (S n) = seqN a n ++ [a + N.of_nat n].
Proof. replace (S n) with (n + 1)%nat by lia. by rewrite seqN_app. Qed.

Lemma range_loop_from {T : Type} `{!Inhabited T} (s : ComponentArray T)
    (fuel : nat) (n : Index) :
  n ≤ MAX_ENTITIES → (N.to_nat n < fuel)%nat →
  ComponentArray.range_loop fuel s {| m_Index := n |} =
    Ok (m_ComponentArray s <$> reverse (seqN 0 (N.to_nat n))).
Proof.
  revert n. induction fuel as [|fuel IH]; intros n Hcap Hfuel; [lia|].
  simpl. unfold ComponentArray.Iterator_ne, ComponentArray.Iterator_eq. simpl.
  destruct (decide (n = 0)) as [->|Hn].
  - by rewrite bool_decide_eq_true_2.
  - rewrite bool_decide_eq_false_2 by done. simpl.
    unfold ComponentArray.Iterator_deref, ComponentArray.Iterator_incr. simpl.
    rewrite size_t_decr_pos by lia. rewrite array_read_Ok by lia. simpl.
    rewrite IH by lia. simpl.
    replace (N.to_nat n) with (S (N.to_nat (n - 1))) by lia.
    rewrite seqN_snoc, reverse_app. simpl.
    do 3 f_equal. lia.
Qed.

(** C10. The default iteration of a store visits the [m_Size] occupied
    slots from slot [m_Size - 1] down to slot 0: [begin()] is at index
    [m_Size], [end()] at index 0, [operator++] decrements the index and a
    dereference reads the slot at the index minus one. *)
Theorem C10_component_iteration_reversed {T : Type} `{!Inhabited T}
    (s : ComponentArray T) (fuel : nat) :
  m_Size s ≤ MAX_ENTITIES → (N.to_nat (m_Size s) < fuel)%nat →
  ComponentArray.range_loop fuel s (ComponentArray.begin s) =
    Ok (m_ComponentArray s <$> reverse (seqN 0 (N.to_nat (m_Size s)))) ∧
  m_Index (ComponentArray.begin s) = m_Size s ∧
  m_Index (ComponentArray.end_ s) = 0 ∧
  ∀ it, 0 < m_Index it → m_Index it ≤ MAX_ENTITIES →
        m_Index (ComponentArray.Iterator_incr it) = m_Index it - 1 ∧
        ComponentArray.Iterator_deref s it = Ok (m_ComponentArray s (m_Index it - 1)).
Proof.
  intros Hcap Hfuel. split; [by apply range_loop_from|].
  split; [done|]. split; [done|].
  intros it Hpos Hle.
  unfold ComponentArray.Iterator_incr, ComponentArray.Iterator_deref. simpl.
  rewrite size_t_decr_pos by done. split; [done|].
  apply array_read_Ok. lia.
Qed.

Lemma C10_component_iteration_reversed_witness :
  ComponentArray.range_loop 3 two_entities (ComponentArray.begin two_entities) =
    Ok (m_ComponentArray two_entities <$>
          reverse (seqN 0 (N.to_nat (m_Size two_entities)))) ∧
  m_Index (ComponentArray.begin two_entities) = m_Size two_entities ∧
  m_Index (ComponentArray.end_ two_entities) = 0 ∧
  ∀ it, 0 < m_Index it → m_Index it ≤ MAX_ENTITIES →
        m_Index (ComponentArray.Iterator_incr it) = m_Index it - 1 ∧
        ComponentArray.Iterator_deref two_entities it =
          Ok (m_ComponentArray two_entities (m_Index it - 1)).
Proof.
  apply (C10_component_iteration_reversed two_entities 3).
  - vm_compute. discriminate.
  - vm_compute. lia.
Defined.

Example two_entities_iteration :
  ComponentArray.range_loop 3 two_entities (ComponentArray.begin two_entities) =
    Ok [20; 10].
Proof. reflexivity. Qed.

(** ** The entity allocator *)

Lemma seqN_cons a n : seqN a (S n) = a :: seqN (N.succ a) n.
Proof. reflexivity. Qed.

Lemma push_ids_from fuel id queue :
  id ≤ MAX_ENTITIES → (N.to_nat (MAX_ENTITIES - id) < fuel)%nat →
  push_ids fuel id queue = queue ++ seqN id (N.to_nat (MAX_ENTITIES - id)).
Proof.
  revert id queue. induction fuel as [|fuel IH]; intros id queue Hid Hfuel; [lia|].
  simpl. destruct (decide (id < MAX_ENTITIES)) as [Hlt|Hge].
  - rewrite uint32_incr_small by done. rewrite IH by lia.
    replace (N.to_nat (MAX_ENTITIES - id))
      with (S (N.to_nat (MAX_ENTITIES - (id + 1)))) by lia.
    rewrite seqN_cons, <- app_assoc. simpl. do 3 f_equal. lia.
  - replace (MAX_ENTITIES - id) with 0 by lia. simpl. by rewrite app_nil_r.
Qed.

(** The queue of a new registry is the queue the constructor's loop builds. *)
Lemma push_ids_seqN :
  push_ids (S (N.to_nat MAX_ENTITIES)) 0 [] = seqN 0 (N.to_nat MAX_ENTITIES).
Proof. rewrite push_ids_from; [by rewrite N.sub_0_r|lia|lia]. Qed.

Section Allocator.
Context {V : Type} `{!Inhabited V} `{!MapOrder}.
Implicit Types (r : Registry V).

Lemma CreateEntity_front r id queue :
  m_AvailableEntities r = id :: queue →
  m_LivingEntityCount r < MAX_ENTITIES →
  Registry.CreateEntity r =
    Ok (id, {| m_AvailableEntities := queue;
               m_LivingEntityCount := m_LivingEntityCount r + 1;
               m_ComponentArrays := m_ComponentArrays r |}).
Proof.
  intros Hq Hlt. unfold Registry.CreateEntity.
  rewrite bool_decide_eq_true_2 by done. simpl. rewrite Hq.
  by rewrite uint32_incr_small.
Qed.

Lemma CreateEntity_full r :
  ¬ m_LivingEntityCount r < MAX_ENTITIES →
  Registry.CreateEntity r = AssertionFailed "Too many entities in existance.".
Proof.
  intros Hge. unfold Registry.CreateEntity.
  by rewrite bool_decide_eq_false_2.
Qed.

Lemma CreateEntity_stores r id r' :
  Registry.CreateEntity r = Ok (id, r') →
  m_ComponentArrays r' = m_ComponentArrays r.
Proof.
  unfold Registry.CreateEntity. destruct (assert _ _); [|done..]. simpl.
  destruct (m_AvailableEntities r); [done|]. by intros [= _ <-].
Qed.

Lemma create_many_stores n r ids r' :
  create_many n r = Ok (ids, r') →
  m_ComponentArrays r' = m_ComponentArrays r.
Proof.
  revert r ids. induction n as [|n IH]; intros r ids; simpl.
  - by intros [= _ <-].
  - destruct (Registry.CreateEntity r) as [[id r1]| |] eqn:Hc; [|done..].
    simpl. destruct (create_many n r1) as [[ids1 r2]| |] eqn:Hm; [|done..].
    simpl. intros [= _ <-].
    rewrite (IH _ _ Hm). by apply CreateEntity_stores in Hc.
Qed.

(** [n] creations from a registry whose queue starts with [n] ids. *)
Lemma create_many_front n r front queue :
  m_AvailableEntities r = front ++ queue → length front = n →
  m_LivingEntityCount r + N.of_nat n ≤ MAX_ENTITIES →
  create_many n r =
    Ok (front, {| m_AvailableEntities := queue;
                  m_LivingEntityCount := m_LivingEntityCount r + N.of_nat n;
                  m_ComponentArrays := m_ComponentArrays r |}).
Proof.
  revert r front. induction n as [|n IH]; intros r front Hq Hlen Hcap.
  - destruct front; [|done]. simpl in *. rewrite N.add_0_r.
    rewrite <- Hq. by destruct r.
  - destruct front as [|id front]; [done|]. simpl in Hq, Hlen.
    simpl. rewrite (CreateEntity_front r id (front ++ queue)) by (done || lia).
    simpl. erewrite IH; [|done|lia|simpl; lia]. simpl.
    do 3 f_equal. lia.
Qed.

Lemma OnEntityDestroyed_no_stores entity r :
  m_ComponentArrays r = ∅ → Registry.OnEntityDestroyed entity r = Ok r.
Proof.
  intros Hs. unfold Registry.OnEntityDestroyed. rewrite Hs, map_fold_empty.
  simpl. rewrite <- Hs. by destruct r.
Qed.

End Allocator.

(** ** Destruction of an entity *)

Section Destruction.
Context {V : Type} `{!Inhabited V} `{!MapOrder}.
Implicit Types (r : Registry V) (s : ComponentArray V) (stores : Stores V).

Lemma RemoveData_gone entity s s' :
  ComponentArray.RemoveData entity s = Ok s' →
  m_EntityToIndexMap s' !! entity = None.
Proof.
  unfold ComponentArray.RemoveData.
  destruct (subscript (m_EntityToIndexMap s) entity) as [i e2i].
  destruct (ComponentArray.array_read _ _) as [x| |]; [|done..]. simpl.
  destruct (ComponentArray.array_write _ _ _) as [arr| |]; [|done..]. simpl.
  destruct (subscript (m_IndexToEntityMap s) _) as [last i2e].
  intros [= <-]. simpl. apply lookup_delete_eq.
Qed.

Lemma OnEntityDestroyed_gone entity s s' :
  ComponentArray.OnEntityDestroyed entity s = Ok s' →
  ComponentArray.HasData entity s' = false.
Proof.
  unfold ComponentArray.OnEntityDestroyed.
  destruct (ComponentArray.HasData entity s) eqn:Hhas.
  - intros Hrem. apply HasData_false. by apply RemoveData_gone in Hrem.
  - by intros [= <-].
Qed.

Lemma OnEntityDestroyed_packed entity s m :
  packed s m →
  ∃ s', ComponentArray.OnEntityDestroyed entity s = Ok s' ∧
        packed s' (delete entity m).
Proof.
  intros Hp. unfold ComponentArray.OnEntityDestroyed.
  destruct (ComponentArray.HasData entity s) eqn:Hhas.
  - apply HasData_true, (packed_present _ _ Hp) in Hhas.
    destruct (packed_remove s m entity Hp Hhas) as (s' & Hrem & _ & Hp').
    eauto.
  - exists s. split; [done|]. rewrite delete_id; [done|].
    apply HasData_false in Hhas. apply eq_None_not_Some.
    rewrite <- (packed_present _ _ Hp), Hhas. by intros [? ?].
Qed.

(** The fold of [OnEntityDestroyed] over the stores of a registry. *)
Lemma destroy_fold entity stores :
  (∀ c s, stores !! c = Some s →
          ∃ s', ComponentArray.OnEntityDestroyed entity s = Ok s') →
  ∃ stores',
    map_fold
      (λ c arr acc,
         stores ← acc;
         arr ← ComponentArray.OnEntityDestroyed entity arr;
         Ok (<[c := arr]> stores))
      (Ok ∅) stores = Ok stores' ∧
    ∀ c, match stores !! c with
         | Some s => ∃ s', ComponentArray.OnEntityDestroyed entity s = Ok s' ∧
                           stores' !! c = Some s'
         | None => stores' !! c = None
         end.
Proof.
  apply (map_fold_weak_ind (λ res sts,
    (∀ c s, sts !! c = Some s →
            ∃ s', ComponentArray.OnEntityDestroyed entity s = Ok s') →
    ∃ stores', res = Ok stores' ∧
      ∀ c, match sts !! c with
           | Some s => ∃ s', ComponentArray.OnEntityDestroyed entity s = Ok s' ∧
                             stores' !! c = Some s'
           | None => stores' !! c = None
           end)).
  - intros _. exists ∅. split; [done|]. intros c. by rewrite !lookup_empty.
  - intros c s sts res Hfresh IH Hok.
    destruct IH as (stores' & -> & Hst).
    { intros c' s' Hc'. apply (Hok c' s').
      rewrite lookup_insert_ne; [done|]. intros <-. congruence. }
    destruct (Hok c s) as [s' Hs']; [apply lookup_insert_eq|].
    exists (<[c := s']> stores'). simpl. rewrite Hs'. simpl.
    split; [done|]. intros c'. rewrite !lookup_insert.
    destruct (decide (c = c')) as [<-|Hne]; [eauto|apply Hst].
Qed.

Lemma HasComponent_store c entity r :
  fst (Registry.HasComponent c entity r) =
    ComponentArray.HasData entity (View.store (m_ComponentArrays r) c).
Proof.
  unfold Registry.HasComponent, Registry.GetComponentArray, View.store.
  by destruct (m_ComponentArrays r !! c).
Qed.

End Destruction.

(** C8. [DestroyEntity] of an id below [MAX_ENTITIES], in a registry whose
    stores are packed, returns: every store the registry holds has had
    [OnEntityDestroyed] applied, the id is at the back of the queue of
    available ids, [HasComponent] of the entity is false for every component
    type, and it stays false through any number of creations, among them the
    creation that hands the id out again. *)
Theorem C8_destroy_entity {V : Type} `{!Inhabited V}
    (r : Registry V) (entity : Entity) :
  entity < MAX_ENTITIES →
  (∀ c s, m_ComponentArrays r !! c = Some s → ∃ m, packed s m) →
  ∃ r', Registry.DestroyEntity entity r = Ok r' ∧
    (∀ c, match m_ComponentArrays r !! c with
          | Some s => ∃ s', ComponentArray.OnEntityDestroyed entity s = Ok s' ∧
                            m_ComponentArrays r' !! c = Some s'
          | None => m_ComponentArrays r' !! c = None
          end) ∧
    m_AvailableEntities r' = m_AvailableEntities r ++ [entity] ∧
    (∀ c, fst (Registry.HasComponent c entity r') = false) ∧
    (∀ n ids r'', create_many n r' = Ok (ids, r'') →
                  ∀ c, fst (Registry.HasComponent c entity r'') = false).
Proof.
  intros He Hpacked.
  destruct (destroy_fold entity (m_ComponentArrays r)) as (stores' & Hfold & Hst).
  { intros c s Hc. destruct (Hpacked c s Hc) as [m Hm].
    destruct (OnEntityDestroyed_packed entity s m Hm) as (s' & Hs' & _). eauto. }
  assert (∀ c, ComponentArray.HasData entity (View.store stores' c) = false)
    as Hgone.
  { intros c. unfold View.store. specialize (Hst c).
    destruct (m_ComponentArrays r !! c) as [s|].
    - destruct Hst as (s' & Hs' & ->). simpl.
      by apply OnEntityDestroyed_gone in Hs'.
    - by rewrite Hst. }
  eexists. split.
  { unfold Registry.DestroyEntity, Registry.OnEntityDestroyed.
    rewrite bool_decide_eq_true_2 by done. simpl. rewrite Hfold. simpl.
    reflexivity. }
  simpl. split; [exact Hst|]. split; [done|]. split.
  - intros c. rewrite HasComponent_store. apply Hgone.
  - intros n ids r'' Hmany c. rewrite HasComponent_store.
    apply create_many_stores in Hmany. rewrite Hmany. apply Hgone.
Qed.

Lemma two_stores_packed c s :
  m_ComponentArrays two_stores !! c = Some s → ∃ m, packed s m.
Proof.
  simpl. rewrite !lookup_insert. repeat case_decide; try done;
    intros [= <-]; exists two_entities_content; apply two_entities_packed.
Qed.

Lemma C8_destroy_entity_witness :
  3 < MAX_ENTITIES ∧
  ∃ r', Registry.DestroyEntity 3 two_stores = Ok r' ∧
        m_AvailableEntities r' = [7; 3] ∧
        fst (Registry.HasComponent 0 3 r') = false ∧
        fst (Registry.HasComponent 1 3 r') = false ∧
        ∀ r'', Registry.CreateEntity r' = Ok (7, r'') →
               fst (Registry.HasComponent 0 3 r'') = false.
Proof.
  assert (3 < MAX_ENTITIES) as Hlt by reflexivity.
  split; [exact Hlt|].
  destruct (C8_destroy_entity two_stores 3 Hlt
              two_stores_packed) as (r' & Hd & _ & Hq & Hhas & Hlater).
  exists r'. split; [exact Hd|]. split; [exact Hq|].
  split; [apply Hhas|]. split; [apply Hhas|].
  intros r'' Hc. apply (Hlater 1%nat [7] r''). simpl. rewrite Hc. reflexivity.
Defined.

(** ** Views *)

Section Views.
Context {V : Type} `{!Inhabited V} `{!MapOrder}.
Implicit Types (r : Registry V) (stores : Stores V) (v : View).

Lemma Contains_true v entity stores :
  View.Contains v entity stores = true ↔
  ∀ c, c ∈ m_Arrays v →
       ComponentArray.HasData entity (View.store stores c) = true.
Proof.
  unfold View.Contains. rewrite forallb_forall.
  split; intros Hall c Hc; apply Hall; by apply list_elem_of_In.
Qed.

Lemma View_Ok c cs r :
  Registry.View (c :: cs) r =
    Ok ({| m_First := c; m_Rest := cs |},
        foldl (λ r c, snd (Registry.GetComponentArray c r)) r (c :: cs)).
Proof. reflexivity. Qed.

(** Making the store of a type does not change what any store holds. *)
Lemma GetComponentArray_store c c' r :
  View.store (m_ComponentArrays (snd (Registry.GetComponentArray c r))) c' =
  View.store (m_ComponentArrays r) c'.
Proof.
  unfold Registry.GetComponentArray, View.store.
  destruct (m_ComponentArrays r !! c) eqn:Hc; [done|]. simpl.
  rewrite lookup_insert. case_decide; [|done]. subst. by rewrite Hc.
Qed.

Lemma View_store comps c' r :
  View.store
    (m_ComponentArrays
       (foldl (λ r c, snd (Registry.GetComponentArray c r)) r comps)) c' =
  View.store (m_ComponentArrays r) c'.
Proof.
  revert r. induction comps as [|c comps IH]; intros r; simpl; [done|].
  by rewrite IH, GetComponentArray_store.
Qed.

Lemma range_keys v stores :
  View.range v stores =
    map_keys (m_EntityToIndexMap (View.store stores (m_First v))).
Proof.
  unfold View.range, View.begin, View.end_, ComponentArray.EntityIterator_range,
    ComponentArray.BeginEntityIt, ComponentArray.EndEntityIt. simpl.
  rewrite Nat.sub_0_r. apply firstn_all.
Qed.

End Views.

(** C7. A view contains an entity exactly when every store it refers to has
    the entity; for a view on two types [A] and [B] this is the conjunction
    of [HasComponent<A>] and [HasComponent<B>], asked of the registry before
    the view is made or after. *)
Theorem C7_view_contains {V : Type} `{!Inhabited V}
    (r : Registry V) (entity : Entity) :
  (∀ comps v r', Registry.View comps r = Ok (v, r') →
     (View.Contains v entity (m_ComponentArrays r') = true ↔
      ∀ c, c ∈ comps → fst (Registry.HasComponent c entity r') = true)) ∧
  (∀ A B, ∃ v r',
     Registry.View [A; B] r = Ok (v, r') ∧
     View.Contains v entity (m_ComponentArrays r') =
       fst (Registry.HasComponent A entity r') &&
       fst (Registry.HasComponent B entity r') ∧
     View.Contains v entity (m_ComponentArrays r') =
       fst (Registry.HasComponent A entity r) &&
       fst (Registry.HasComponent B entity r)).
Proof.
  split.
  - intros comps v r' Hview. destruct comps as [|c cs]; [done|].
    rewrite View_Ok in Hview. injection Hview as <- <-.
    rewrite Contains_true. unfold m_Arrays. simpl.
    split; intros Hall c' Hc'; specialize (Hall c' Hc');
      by rewrite HasComponent_store in *.
  - intros A B. do 2 eexists. split; [apply View_Ok|].
    unfold View.Contains, m_Arrays. simpl.
    rewrite !HasComponent_store, andb_true_r.
    split; [done|].
    by rewrite !GetComponentArray_store.
Qed.

(** ** Range iteration of a view *)

Lemma new_front3 {V : Type} :
  Registry.new (V := V) =
    {| m_AvailableEntities := 0 :: 1 :: 2 :: seqN 3 (N.to_nat (MAX_ENTITIES - 3));
       m_LivingEntityCount := 0;
       m_ComponentArrays := ∅ |}.
Proof.
  unfold Registry.new.
  replace (N.to_nat MAX_ENTITIES)
    with (S (S (S (N.to_nat (MAX_ENTITIES - 3))))) by (unfold MAX_ENTITIES; lia).
  reflexivity.
Qed.

Lemma elem_of_map_order `{!MapOrder} (m : gmap Entity Index) e :
  e ∈ map_keys m ↔ is_Some (m !! e).
Proof. rewrite map_keys_perm. apply elem_of_map_keys. Qed.

Lemma NoDup_map_order `{!MapOrder} (m : gmap Entity Index) : NoDup (map_keys m).
Proof. rewrite map_keys_perm. apply NoDup_fst_map_to_list. Qed.

Lemma setup2_result tag1 tag2 :
  ∃ r, setup2 tag1 tag2 = Ok (0, 1, 2, {| m_First := TAG; m_Rest := [] |}, r) ∧
       m_EntityToIndexMap (View.store (m_ComponentArrays r) TAG) =
         <[1 := 1]> (<[0 := 0]> ∅).
Proof.
  unfold setup2. rewrite new_front3.
  generalize (seqN 3 (N.to_nat (MAX_ENTITIES - 3))). intros q.
  eexists. split; vm_compute; reflexivity.
Qed.

(** C5. The range iteration of a view yields the entities of the store of
    its first type, in the enumeration order of the entity index of that
    store, each once, whether or not the other stores of the view have them.
    For the view on tags, with tags on the first two of three entities, it
    yields the first two entities and not the third. *)
Theorem C5_view_range_first_store `{!MapOrder} :
  (∀ (V : Type) (I : Inhabited V) (v : View) (stores : Stores V),
     View.range v stores =
       ComponentArray.BeginEntityIt (View.store stores (m_First v)) ∧
     NoDup (View.range v stores) ∧
     ∀ e, e ∈ View.range v stores ↔
          ComponentArray.HasData e (View.store stores (m_First v)) = true) ∧
  (∀ e, e ∈ View.range {| m_First := 0; m_Rest := [1] |} first_store_only ↔
        e = 3 ∨ e = 5) ∧
  View.Contains {| m_First := 0; m_Rest := [1] |} 3 first_store_only = false ∧
  (∀ tag1 tag2, ∃ view r,
     setup2 tag1 tag2 = Ok (0, 1, 2, view, r) ∧
     View.range view (m_ComponentArrays r) ≡ₚ [0; 1] ∧
     2 ∉ View.range view (m_ComponentArrays r)).
Proof.
  assert (∀ (V : Type) (I : Inhabited V) (v : View) (stores : Stores V) e,
     e ∈ View.range v stores ↔
     ComponentArray.HasData e (View.store stores (m_First v)) = true) as Hmem.
  { intros V I v stores e.
    by rewrite range_keys, elem_of_map_order, HasData_true. }
  split; [|split; [|split]].
  - intros V I v stores. split; [apply range_keys|]. split; [|apply Hmem].
    rewrite range_keys. apply NoDup_map_order.
  - intros e. rewrite Hmem, HasData_true.
    change (m_EntityToIndexMap _) with (<[5 := 1]> (<[3 := 0]> (∅ : gmap N N))).
    rewrite !lookup_insert_is_Some, lookup_empty.
    split.
    + intros [He | [_ [He | [_ [x Hx] ] ] ] ]; [by right|by left|done].
    + intros [-> | ->]; [right; split; [done|by left]|by left].
  - reflexivity.
  - intros tag1 tag2.
    destruct (setup2_result tag1 tag2) as (r & Hsetup & Hkeys).
    exists {| m_First := TAG; m_Rest := [] |}, r. split; [done|].
    assert (View.range {| m_First := TAG; m_Rest := [] |} (m_ComponentArrays r)
              ≡ₚ [0; 1]) as Hperm.
    { rewrite range_keys. simpl. rewrite Hkeys, map_keys_perm.
      by vm_compute; apply perm_swap. }
    split; [done|]. rewrite Hperm, !not_elem_of_cons.
    repeat split; [done..|apply not_elem_of_nil].
Qed.

(** ** Each *)

Lemma setup1_result uuid1 uuid2 tag1 tag2 point1 point2 :
  let view := {| m_First := UUID; m_Rest := [TAG; POINT] |} in
  ∃ r, setup1 uuid1 uuid2 tag1 tag2 point1 point2 = Ok (0, 1, view, r) ∧
       m_EntityToIndexMap (View.store (m_ComponentArrays r) UUID) =
         <[1 := 1]> (<[0 := 0]> ∅) ∧
       m_Size (View.store (m_ComponentArrays r) UUID) = 2 ∧
       m_ComponentArray (View.store (m_ComponentArrays r) UUID) 0 = uuid1 ∧
       m_ComponentArray (View.store (m_ComponentArrays r) UUID) 1 = uuid2 ∧
       (fst <$> View.Each_loop view [0; 1] {| m_Index := 2 |} (m_ComponentArrays r))
         = Ok [(0, [uuid2; tag1; point1]); (1, [uuid1; tag2; point2])] ∧
       (fst <$> View.Each_loop view [1; 0] {| m_Index := 2 |} (m_ComponentArrays r))
         = Ok [(1, [uuid2; tag2; point2]); (0, [uuid1; tag1; point1])].
Proof.
  unfold setup1. rewrite new_front3.
  generalize (seqN 3 (N.to_nat (MAX_ENTITIES - 3))). intros q.
  eexists. repeat split; vm_compute; reflexivity.
Qed.

Lemma two_keys_order `{!MapOrder} :
  map_keys (<[1 := 1]> (<[0 := 0]> ∅)) = [1; 0] ∨
  map_keys (<[1 := 1]> (<[0 := 0]> ∅)) = [0; 1].
Proof.
  apply Permutation_length_2_inv. rewrite map_keys_perm. by vm_compute.
Qed.

(** Whatever the enumeration order of the entity index, [Each] calls the
    callback once for each of the two entities, with the tag and the point
    of the entity; the first call receives the uuid of slot 1, which is the
    uuid of the second entity, and the second call the uuid of slot 0. The
    uuids are those of the entities exactly when the index enumerates the
    second entity first. *)
Lemma scenario1_by_order {order : MapOrder} uuid1 uuid2 tag1 tag2 point1 point2 :
  (map_keys (<[1 := 1]> (<[0 := 0]> ∅)) = [1; 0] ∧
   scenario1 uuid1 uuid2 tag1 tag2 point1 point2 =
     Ok (0, 1, [(1, [uuid2; tag2; point2]); (0, [uuid1; tag1; point1])])) ∨
  (map_keys (<[1 := 1]> (<[0 := 0]> ∅)) = [0; 1] ∧
   scenario1 uuid1 uuid2 tag1 tag2 point1 point2 =
     Ok (0, 1, [(0, [uuid2; tag1; point1]); (1, [uuid1; tag2; point2])])).
Proof.
  destruct (setup1_result uuid1 uuid2 tag1 tag2 point1 point2)
    as (r & Hsetup & Hkeys & Hsize & _ & _ & Hasc & Hdesc).
  unfold scenario1. rewrite Hsetup. cbn [mbind Result_bind].
  unfold View.Each, ComponentArray.BeginEntityIt, ComponentArray.begin.
  cbn [m_First]. rewrite Hkeys, Hsize.
  destruct two_keys_order as [Hk|Hk]; [left|right]; (split; [done|]); rewrite Hk.
  - destruct (View.Each_loop _ [1; 0] _ _) as [[calls stores]| |];
      [|done..]. by injection Hdesc as ->.
  - destruct (View.Each_loop _ [0; 1] _ _) as [[calls stores]| |];
      [|done..]. by injection Hasc as ->.
Qed.

(** C3, evaluated with an entity index that enumerates its keys in
    increasing order: the callback of [Each] is called once for entity 0 and
    once for entity 1, with the tag and the point of the entity, but entity 0
    receives the uuid of entity 1 and entity 1 the uuid of entity 0. *)
Theorem C3_each_first_component_of_other_entity :
  scenario1 (order := AscendingOrder)
    (UUIDComponent 5) (UUIDComponent 10)
    (TagComponent "Pepe") (TagComponent "Tom")
    (PointComponent 1 2) (PointComponent 3 4) =
  Ok (0, 1,
      [(0, [UUIDComponent 10; TagComponent "Pepe"; PointComponent 1 2]);
       (1, [UUIDComponent 5; TagComponent "Tom"; PointComponent 3 4])]).
Proof.
  destruct (scenario1_by_order (order := AscendingOrder)
              (UUIDComponent 5) (UUIDComponent 10)
              (TagComponent "Pepe") (TagComponent "Tom")
              (PointComponent 1 2) (PointComponent 3 4)) as [[Hk _]|[_ Hs]].
  - exfalso. revert Hk. by vm_compute.
  - exact Hs.
Qed.

(** With an entity index that enumerates its keys in decreasing order every
    call receives the uuid of its entity. *)
Example scenario1_descending :
  scenario1 (order := DescendingOrder)
    (UUIDComponent 5) (UUIDComponent 10)
    (TagComponent "Pepe") (TagComponent "Tom")
    (PointComponent 1 2) (PointComponent 3 4) =
  Ok (0, 1,
      [(1, [UUIDComponent 10; TagComponent "Tom"; PointComponent 3 4]);
       (0, [UUIDComponent 5; TagComponent "Pepe"; PointComponent 1 2])]).
Proof.
  destruct (scenario1_by_order (order := DescendingOrder)
              (UUIDComponent 5) (UUIDComponent 10)
              (TagComponent "Pepe") (TagComponent "Tom")
              (PointComponent 1 2) (PointComponent 3 4)) as [[_ Hs]|[Hk _]].
  - exact Hs.
  - exfalso. revert Hk. by vm_compute.
Qed.


(** ** Further properties of the component store *)

Section StoreEdges.
Context {T : Type} `{!Inhabited T}.
Implicit Types (s : ComponentArray T) (m : gmap Entity T) (e : Entity).

Lemma GetData_packed s m e v :
  packed s m → m !! e = Some v → ComponentArray.GetData e s = Ok (v, s).
Proof.
  intros Hp He.
  destruct (proj2 (packed_present _ _ Hp e)) as [i Hi]; [eauto|].
  pose proof (packed_slot_bound _ _ _ _ Hp Hi) as Hlt.
  pose proof (packed_capacity _ _ Hp) as Hcap.
  rewrite (GetData_Ok e i) by (done || lia).
  apply (packed_values _ _ Hp) in Hi. congruence.
Qed.

(** [RemoveData] of an entity without an index entry, in a store whose last
    slot is recorded in [m_IndexToEntityMap]: [operator[]] makes the entry,
    with slot 0. *)
Lemma RemoveData_absent_Ok e last s :
  m_EntityToIndexMap s !! e = None →
  0 < m_Size s → m_Size s ≤ MAX_ENTITIES →
  m_IndexToEntityMap s !! (m_Size s - 1) = Some last →
  ComponentArray.RemoveData e s =
    Ok {| m_ComponentArray :=
            <[0 := m_ComponentArray s (m_Size s - 1)]> (m_ComponentArray s);
          m_EntityToIndexMap :=
            delete e (<[last := 0]> (<[e := 0]> (m_EntityToIndexMap s)));
          m_IndexToEntityMap :=
            delete (m_Size s - 1) (<[0 := last]> (m_IndexToEntityMap s));
          m_Size := m_Size s - 1 |}.
Proof.
  intros He Hpos Hcap Hlast. unfold ComponentArray.RemoveData.
  rewrite (subscript_None _ _ He), size_t_decr_pos by done.
  rewrite array_read_Ok by lia. cbn [mbind Result_bind].
  rewrite array_write_Ok by lia. cbn [mbind Result_bind].
  by rewrite (subscript_Some _ _ _ Hlast).
Qed.

End StoreEdges.

(** X1. [OnEntityDestroyed] is idempotent: once it has returned, the entity
    is not in the store and a second call returns the same store. *)
Theorem X1_OnEntityDestroyed_idempotent {T : Type} `{!Inhabited T}
    (s s' : ComponentArray T) (e : Entity) :
  ComponentArray.OnEntityDestroyed e s = Ok s' →
  ComponentArray.HasData e s' = false ∧
  ComponentArray.OnEntityDestroyed e s' = Ok s'.
Proof.
  intros Hd. apply OnEntityDestroyed_gone in Hd. split; [done|].
  unfold ComponentArray.OnEntityDestroyed. by rewrite Hd.
Qed.

Lemma X1_OnEntityDestroyed_idempotent_witness :
  ∃ s', ComponentArray.OnEntityDestroyed 3 two_entities = Ok s' ∧
        ComponentArray.HasData 3 s' = false ∧
        ComponentArray.OnEntityDestroyed 3 s' = Ok s'.
Proof.
  eexists. split; [reflexivity|].
  apply (X1_OnEntityDestroyed_idempotent two_entities). reflexivity.
Defined.

(** X2. [RemoveData] on a store of size 0 reads the array at index
    [2^64 - 1]: it is an access out of bounds, for every entity, present in
    the index or not. *)
Theorem X2_RemoveData_empty_store {T : Type} `{!Inhabited T}
    (s : ComponentArray T) (e : Entity) :
  m_Size s = 0 → ComponentArray.RemoveData e s = Undefined.
Proof.
  intros Hs. unfold ComponentArray.RemoveData.
  destruct (subscript (m_EntityToIndexMap s) e) as [i e2i].
  rewrite Hs, size_t_decr_zero. unfold ComponentArray.array_read.
  rewrite decide_False; [done|]. by vm_compute.
Qed.

Lemma X2_RemoveData_empty_store_witness :
  ComponentArray.RemoveData 3 (ComponentArray.new (T := N)) = Undefined.
Proof. apply X2_RemoveData_empty_store. reflexivity. Defined.

(** X3. [RemoveData] of an entity that is not present, on a packed store
    that is not empty, returns: it overwrites slot 0 with the value of the
    last slot and decrements [m_Size], while the entity index keeps all its
    entries. The index then has one entry more than [m_Size]: the store is
    not packed any more, whatever content one takes. *)
Theorem X3_RemoveData_absent_breaks_packing {T : Type} `{!Inhabited T}
    (s : ComponentArray T) (m : gmap Entity T) (e : Entity) :
  packed s m → m !! e = None → 0 < m_Size s →
  ∃ s', ComponentArray.RemoveData e s = Ok s' ∧
        m_Size s' = m_Size s - 1 ∧
        m_ComponentArray s' 0 = m_ComponentArray s (m_Size s - 1) ∧
        N.of_nat (size (m_EntityToIndexMap s')) = m_Size s ∧
        ∀ m', ¬ packed s' m'.
Proof.
  intros Hp Hnone Hpos.
  assert (m_EntityToIndexMap s !! e = None) as Habs.
  { apply eq_None_not_Some. rewrite (packed_present _ _ Hp), Hnone.
    by intros [? ?]. }
  pose proof (packed_capacity _ _ Hp) as Hcap.
  destruct (proj2 (packed_slots _ _ Hp (m_Size s - 1))) as [last Hlast]; [lia|].
  pose proof (proj2 (packed_inverse _ _ Hp _ _) Hlast) as Hlast'.
  assert (last ≠ e) as Hne by congruence.
  assert (N.of_nat (size (delete e (<[last := 0]> (<[e := 0]>
            (m_EntityToIndexMap s))))) = m_Size s) as Hsize.
  { rewrite map_size_delete_Some, map_size_insert_Some, map_size_insert_None.
    - simpl. apply (packed_count _ _ Hp).
    - done.
    - rewrite lookup_insert_ne by done. eauto.
    - rewrite lookup_insert_ne by done. rewrite lookup_insert_eq. eauto. }
  eexists. split; [by apply (RemoveData_absent_Ok e last)|].
  cbn [m_Size m_ComponentArray m_EntityToIndexMap].
  split; [done|]. split; [apply fn_lookup_insert|]. split; [done|].
  intros m' Hp'. pose proof (packed_count _ _ Hp') as Hcnt.
  cbn [m_Size m_EntityToIndexMap] in Hcnt. lia.
Qed.

Lemma X3_RemoveData_absent_breaks_packing_witness :
  ∃ s', ComponentArray.RemoveData 9 two_entities = Ok s' ∧
        m_Size s' = m_Size two_entities - 1 ∧
        m_ComponentArray s' 0 = m_ComponentArray two_entities (m_Size two_entities - 1) ∧
        N.of_nat (size (m_EntityToIndexMap s')) = m_Size two_entities ∧
        ∀ m', ¬ packed s' m'.
Proof.
  apply (X3_RemoveData_absent_breaks_packing two_entities two_entities_content 9).
  - exact two_entities_packed.
  - reflexivity.
  - reflexivity.
Defined.

(** X4. Insert and lookup on a packed store: after [InsertData] of an entity
    that was not present, [GetData] of that entity returns the inserted
    value, [GetData] of every entity that was present returns the value it
    had, and neither lookup changes the store. *)
Theorem X4_insert_then_get {T : Type} `{!Inhabited T}
    (s : ComponentArray T) (m : gmap Entity T) (e : Entity) (v : T) :
  packed s m → m !! e = None → e < MAX_ENTITIES →
  ∃ s1, ComponentArray.InsertData e v s = Ok (m_Size s, s1) ∧
        ComponentArray.HasData e s1 = true ∧
        ComponentArray.GetData e s1 = Ok (v, s1) ∧
        ∀ e' v', m !! e' = Some v' →
                 ComponentArray.GetData e' s1 = Ok (v', s1).
Proof.
  intros Hp Hnone He.
  destruct (packed_insert s m e v Hp Hnone He) as (s1 & Hins & _ & Hp1).
  exists s1. split; [done|]. split; [|split].
  - apply HasData_true, (packed_present _ _ Hp1). rewrite lookup_insert_eq. eauto.
  - apply (GetData_packed _ _ _ _ Hp1), lookup_insert_eq.
  - intros e' v' He'. apply (GetData_packed _ _ _ _ Hp1).
    rewrite lookup_insert_ne; [done|]. congruence.
Qed.

Lemma X4_insert_then_get_witness :
  ∃ s1, ComponentArray.InsertData 8 80 two_entities = Ok (m_Size two_entities, s1) ∧
        ComponentArray.HasData 8 s1 = true ∧
        ComponentArray.GetData 8 s1 = Ok (80, s1) ∧
        ∀ e' v', two_entities_content !! e' = Some v' →
                 ComponentArray.GetData e' s1 = Ok (v', s1).
Proof.
  apply (X4_insert_then_get two_entities two_entities_content 8 80).
  - exact two_entities_packed.
  - reflexivity.
  - reflexivity.
Defined.

(** X5. [GetData] of an entity without an index entry does not fail: the
    [operator[]] of the index inserts the entity with slot 0, the call
    returns the value of slot 0, and from then on [HasData] of the entity is
    true although nothing was inserted for it. *)
Theorem X5_GetData_absent_inserts {T : Type} `{!Inhabited T}
    (s : ComponentArray T) (e : Entity) :
  ComponentArray.HasData e s = false →
  ∃ s', ComponentArray.GetData e s = Ok (m_ComponentArray s 0, s') ∧
        ComponentArray.HasData e s' = true ∧
        m_EntityToIndexMap s' !! e = Some 0 ∧
        m_Size s' = m_Size s ∧
        m_IndexToEntityMap s' = m_IndexToEntityMap s.
Proof.
  intros Habs. apply HasData_false in Habs.
  unfold ComponentArray.GetData. rewrite (subscript_None _ _ Habs).
  rewrite array_read_Ok by reflexivity. cbn [mbind Result_bind].
  eexists. split; [reflexivity|]. cbn [m_EntityToIndexMap m_Size m_IndexToEntityMap].
  split; [|split; [apply lookup_insert_eq|done]].
  apply HasData_true. cbn [m_EntityToIndexMap]. rewrite lookup_insert_eq. eauto.
Qed.

Lemma X5_GetData_absent_inserts_witness :
  ∃ s', ComponentArray.GetData 9 two_entities = Ok (m_ComponentArray two_entities 0, s') ∧
        ComponentArray.HasData 9 s' = true ∧
        m_EntityToIndexMap s' !! 9 = Some 0 ∧
        m_Size s' = m_Size two_entities ∧
        m_IndexToEntityMap s' = m_IndexToEntityMap two_entities.
Proof. apply (X5_GetData_absent_inserts two_entities 9). reflexivity. Defined.

(** X6. [RemoveData] of a present entity of a packed store moves at most one
    other entity, the one of the last slot: every entity other than the
    removed one and that one keeps its slot, and its slot keeps its value.
    When the removed entity is itself in the last slot nothing else moves. *)
Theorem X6_RemoveData_frame {T : Type} `{!Inhabited T}
    (s : ComponentArray T) (m : gmap Entity T) (E last : Entity) :
  packed s m → is_Some (m !! E) →
  m_IndexToEntityMap s !! (m_Size s - 1) = Some last →
  ∃ s', ComponentArray.RemoveData E s = Ok s' ∧
        ∀ e j, e ≠ E → e ≠ last →
               m_EntityToIndexMap s !! e = Some j →
               m_EntityToIndexMap s' !! e = Some j ∧
               m_IndexToEntityMap s' !! j = Some e ∧
               m_ComponentArray s' j = m_ComponentArray s j.
Proof.
  intros Hp Hsome Hlast.
  destruct (proj2 (packed_present _ _ Hp E) Hsome) as [i HE].
  pose proof (packed_slot_bound _ _ _ _ Hp HE) as Hi.
  pose proof (packed_capacity _ _ Hp) as Hcap.
  pose proof (proj2 (packed_inverse _ _ Hp _ _) Hlast) as Hlast'.
  eexists. split; [apply (RemoveData_Ok E i last); [done|lia|lia|done|done]|].
  intros e j HeE Hel Hej.
  cbn [m_EntityToIndexMap m_IndexToEntityMap m_ComponentArray].
  pose proof (proj1 (packed_inverse _ _ Hp _ _) Hej) as Hje.
  pose proof (proj1 (packed_inverse _ _ Hp _ _) HE) as HiE.
  assert (j ≠ i) by congruence.
  assert (j ≠ m_Size s - 1) by congruence.
  split; [|split].
  - rewrite lookup_delete_ne, lookup_insert_ne by done. done.
  - rewrite lookup_delete_ne, lookup_insert_ne by done. done.
  - by apply fn_lookup_insert_ne.
Qed.

Lemma X6_RemoveData_frame_witness :
  ∃ s', ComponentArray.RemoveData 5 two_entities = Ok s' ∧
        ∀ e j, e ≠ 5 → e ≠ 5 →
               m_EntityToIndexMap two_entities !! e = Some j →
               m_EntityToIndexMap s' !! e = Some j ∧
               m_IndexToEntityMap s' !! j = Some e ∧
               m_ComponentArray s' j = m_ComponentArray two_entities j.
Proof.
  apply (X6_RemoveData_frame two_entities two_entities_content 5 5).
  - exact two_entities_packed.
  - by exists 20.
  - reflexivity.
Defined.

(** ** Further properties of the allocator *)

Section AllocatorFacts.
Context {V : Type} `{!Inhabited V}.
Implicit Types (r : Registry V) (live : gset Entity).

Lemma uint32_decr_zero : uint32_decr 0 = 2 ^ 32 - 1.
Proof. reflexivity. Qed.

(** [DestroyEntity] of an id in range, in a registry of packed stores. *)
Lemma DestroyEntity_Ok entity r :
  entity < MAX_ENTITIES →
  (∀ c s, m_ComponentArrays r !! c = Some s → ∃ m, packed s m) →
  ∃ stores',
    Registry.DestroyEntity entity r =
      Ok {| m_AvailableEntities := m_AvailableEntities r ++ [entity];
            m_LivingEntityCount := uint32_decr (m_LivingEntityCount r);
            m_ComponentArrays := stores' |} ∧
    (∀ c s, stores' !! c = Some s → ∃ m, packed s m) ∧
    (∀ c, ComponentArray.HasData entity (View.store stores' c) = false).
Proof.
  intros He Hpacked.
  destruct (destroy_fold entity (m_ComponentArrays r)) as (stores' & Hfold & Hst).
  { intros c s Hc. destruct (Hpacked c s Hc) as [m Hm].
    destruct (OnEntityDestroyed_packed entity s m Hm) as (s' & Hs' & _). eauto. }
  exists stores'. split; [|split].
  - unfold Registry.DestroyEntity, Registry.OnEntityDestroyed.
    rewrite bool_decide_eq_true_2 by done. cbn [assert mbind Result_bind].
    rewrite Hfold. reflexivity.
  - intros c s' Hc. specialize (Hst c).
    destruct (m_ComponentArrays r !! c) as [s|] eqn:Hs; [|congruence].
    destruct Hst as (s1 & Hs1 & Hc1).
    destruct (Hpacked c s Hs) as [m Hm].
    destruct (OnEntityDestroyed_packed entity s m Hm) as (s2 & Hs2 & Hp2).
    exists (delete entity m). congruence.
  - intros c. unfold View.store. specialize (Hst c).
    destruct (m_ComponentArrays r !! c) as [s|].
    + destruct Hst as (s' & Hs' & ->). by apply OnEntityDestroyed_gone in Hs'.
    + by rewrite Hst.
Qed.

Lemma allocator_ok_new : allocator_ok (Registry.new (V := V)) ∅.
Proof.
  split; unfold Registry.new;
    cbn [m_LivingEntityCount m_AvailableEntities m_ComponentArrays].
  - by rewrite size_empty.
  - rewrite length_seqN. lia.
  - apply NoDup_seqN.
  - intros id. rewrite elem_of_seqN. split.
    + intros [_ Hlt]. split; [lia|apply not_elem_of_empty].
    + intros [Hlt _]. lia.
  - intros id Hid. by apply not_elem_of_empty in Hid.
  - intros c s. by rewrite lookup_empty.
Qed.

Lemma allocator_ok_create r live :
  allocator_ok r live → N.of_nat (size live) < MAX_ENTITIES →
  ∃ id r', Registry.CreateEntity r = Ok (id, r') ∧
           id < MAX_ENTITIES ∧ (id ∉ live) ∧
           allocator_ok r' ({[id]} ∪ live).
Proof.
  intros [Hcnt Htot Hnd Hfree Hlive Hst] Hroom.
  destruct (m_AvailableEntities r) as [|id queue] eqn:Hq.
  { simpl in Htot. lia. }
  destruct (proj1 (Hfree id)) as [Hid Hnl]; [by left|].
  apply NoDup_cons in Hnd as [Hnotin Hnd].
  do 2 eexists. split; [apply (CreateEntity_front r id queue Hq); lia|].
  split; [done|]. split; [done|].
  split; cbn [m_LivingEntityCount m_AvailableEntities m_ComponentArrays].
  - rewrite size_union, size_singleton; [lia|].
    intros x ->%elem_of_singleton. done.
  - simpl in Htot. lia.
  - done.
  - intros id'. rewrite not_elem_of_union, elem_of_singleton.
    specialize (Hfree id'). rewrite elem_of_cons in Hfree.
    split.
    + intros Hin. destruct (proj1 Hfree) as [? ?]; [by right|].
      repeat split; [done| |done]. intros ->. done.
    + intros (Hlt & Hne & Hnl'). destruct (proj2 Hfree) as [?|?]; done.
  - intros id'. rewrite elem_of_union, elem_of_singleton.
    intros [->|?]; auto.
  - done.
Qed.

Lemma allocator_ok_destroy r live entity :
  allocator_ok r live → entity ∈ live →
  ∃ r', Registry.DestroyEntity entity r = Ok r' ∧
        m_AvailableEntities r' = m_AvailableEntities r ++ [entity] ∧
        allocator_ok r' (live ∖ {[entity]}).
Proof.
  intros [Hcnt Htot Hnd Hfree Hlive Hst] Hin.
  destruct (DestroyEntity_Ok entity r (Hlive _ Hin) Hst)
    as (stores' & Hd & Hpacked & _).
  assert (size live ≠ 0%nat) as Hsz.
  { intros Hz. apply size_empty_inv in Hz. set_solver. }
  assert (size (live ∖ {[entity]}) = (size live - 1)%nat) as Hdiff.
  { rewrite size_difference, size_singleton; [done|].
    intros x ->%elem_of_singleton. done. }
  eexists. split; [exact Hd|]. split; [done|].
  split; cbn [m_LivingEntityCount m_AvailableEntities m_ComponentArrays].
  - rewrite uint32_decr_pos by lia. lia.
  - rewrite uint32_decr_pos by lia. rewrite length_app. simpl. lia.
  - apply NoDup_app. split; [done|]. split; [|apply NoDup_singleton].
    intros x Hx [->|[]%elem_of_nil]%elem_of_cons.
    apply Hfree in Hx as [_ Hx]. done.
  - intros id. rewrite elem_of_app, list_elem_of_singleton, Hfree.
    rewrite elem_of_difference, elem_of_singleton.
    split.
    + intros [[? ?]| ->]; [tauto|]. split; [auto|]. tauto.
    + intros [Hlt Hn]. destruct (decide (id = entity)); [by right|].
      left. split; [done|]. tauto.
  - intros id [? _]%elem_of_difference. auto.
  - done.
Qed.

End AllocatorFacts.

(** C6. [CreateEntity] takes the front of a first-in first-out queue that the
    constructor fills with the ids 0, 1, ..., [MAX_ENTITIES - 1]: the first
    [n] calls return 0, ..., [n - 1] for every [n] up to [MAX_ENTITIES]. With
    a living count of at most [MAX_ENTITIES] the call fails, with the
    assertion on the number of entities, exactly when the count is
    [MAX_ENTITIES]. [DestroyEntity] puts the id at the back of the queue:
    after [MAX_ENTITIES] creations the next creation fails, and after the
    destruction of any one entity it returns the id of that entity. *)
Theorem C6_entity_allocator {V : Type} `{!Inhabited V} :
  (∀ n, (n ≤ N.to_nat MAX_ENTITIES)%nat →
     ∃ r : Registry V,
       create_many n Registry.new = Ok (seqN 0 n, r) ∧
       m_LivingEntityCount r = N.of_nat n) ∧
  (∀ r : Registry V, m_LivingEntityCount r ≤ MAX_ENTITIES →
     (Registry.CreateEntity r =
        AssertionFailed "Too many entities in existance."
      ↔ m_LivingEntityCount r = MAX_ENTITIES) ∧
     (∀ id queue, m_LivingEntityCount r ≠ MAX_ENTITIES →
        m_AvailableEntities r = id :: queue →
        ∃ r', Registry.CreateEntity r = Ok (id, r') ∧
              m_AvailableEntities r' = queue)) ∧
  (∀ (r : Registry V) entity, entity < MAX_ENTITIES →
     (∀ c s, m_ComponentArrays r !! c = Some s → ∃ m, packed s m) →
     ∃ r', Registry.DestroyEntity entity r = Ok r' ∧
           m_AvailableEntities r' = m_AvailableEntities r ++ [entity] ∧
           m_LivingEntityCount r' = uint32_decr (m_LivingEntityCount r)) ∧
  (∀ n entity, (1 ≤ n)%nat → (n ≤ N.to_nat MAX_ENTITIES)%nat →
     entity < MAX_ENTITIES →
     ∃ r rd rc : Registry V,
       create_many n Registry.new = Ok (seqN 0 n, r) ∧
       Registry.DestroyEntity entity r = Ok rd ∧
       m_AvailableEntities rd =
         seqN (N.of_nat n) (N.to_nat MAX_ENTITIES - n) ++ [entity] ∧
       create_many (N.to_nat MAX_ENTITIES - n + 1) rd =
         Ok (seqN (N.of_nat n) (N.to_nat MAX_ENTITIES - n) ++ [entity], rc)) ∧
  (∃ full : Registry V,
     create_many (N.to_nat MAX_ENTITIES) Registry.new =
       Ok (seqN 0 (N.to_nat MAX_ENTITIES), full) ∧
     Registry.CreateEntity full =
       AssertionFailed "Too many entities in existance." ∧
     ∀ entity, entity < MAX_ENTITIES →
       ∃ r1 r2, Registry.DestroyEntity entity full = Ok r1 ∧
                m_AvailableEntities r1 = m_AvailableEntities full ++ [entity] ∧
                Registry.CreateEntity r1 = Ok (entity, r2)).
Proof.
  assert (∀ n, (n ≤ N.to_nat MAX_ENTITIES)%nat →
     create_many n (Registry.new (V := V)) =
       Ok (seqN 0 n,
           {| m_AvailableEntities := seqN (N.of_nat n) (N.to_nat MAX_ENTITIES - n);
              m_LivingEntityCount := N.of_nat n;
              m_ComponentArrays := ∅ |})) as Hmany.
  { intros n Hn.
    apply (create_many_front n Registry.new (seqN 0 n)
             (seqN (N.of_nat n) (N.to_nat MAX_ENTITIES - n))).
    - unfold Registry.new. cbn [m_AvailableEntities].
      rewrite <- (seqN_app 0). f_equal. lia.
    - apply length_seqN.
    - unfold Registry.new. cbn [m_LivingEntityCount]. lia. }
  split; [|split; [|split; [|split]]].
  - intros n Hn. eexists. split; [by apply Hmany|reflexivity].
  - intros r Hcap. split.
    + split.
      * intros Hfail. destruct (decide (m_LivingEntityCount r < MAX_ENTITIES));
          [|lia].
        destruct (m_AvailableEntities r) as [|id queue] eqn:Hq.
        -- unfold Registry.CreateEntity in Hfail.
           rewrite bool_decide_eq_true_2, Hq in Hfail by assumption.
           discriminate Hfail.
        -- rewrite (CreateEntity_front r id queue) in Hfail by assumption.
           discriminate Hfail.
      * intros Heq. apply CreateEntity_full. lia.
    + intros id queue Hne Hq. eexists.
      split; [apply (CreateEntity_front r id queue Hq); lia|reflexivity].
  - intros r entity He Hpacked.
    destruct (DestroyEntity_Ok entity r He Hpacked) as (stores' & Hd & _ & _).
    eexists. split; [exact Hd|]. split; reflexivity.
  - intros n entity Hn1 Hn He. do 3 eexists.
    split; [by apply Hmany|]. split; [|split].
    + unfold Registry.DestroyEntity.
      rewrite bool_decide_eq_true_2 by assumption.
      cbn [assert mbind Result_bind].
      rewrite OnEntityDestroyed_no_stores by reflexivity. reflexivity.
    + reflexivity.
    + apply (create_many_front _ _
               (seqN (N.of_nat n) (N.to_nat MAX_ENTITIES - n) ++ [entity]) []).
      * cbn [m_AvailableEntities]. by rewrite app_nil_r.
      * rewrite length_app, length_seqN. reflexivity.
      * cbn [m_LivingEntityCount]. rewrite uint32_decr_pos by lia. lia.
  - eexists. split; [apply Hmany; lia|]. split.
    + apply CreateEntity_full. cbn [m_LivingEntityCount]. lia.
    + intros entity He. do 2 eexists.
      unfold Registry.DestroyEntity.
      rewrite bool_decide_eq_true_2 by assumption.
      cbn [assert mbind Result_bind].
      rewrite OnEntityDestroyed_no_stores by reflexivity.
      cbn [mbind Result_bind m_AvailableEntities m_LivingEntityCount
           m_ComponentArrays].
      split; [reflexivity|]. split; [reflexivity|].
      rewrite Nat.sub_diag. cbn [seqN app].
      apply CreateEntity_front; [reflexivity|].
      cbn [m_LivingEntityCount]. rewrite N2Nat.id.
      rewrite uint32_decr_pos; unfold MAX_ENTITIES; lia.
Qed.

Lemma MAX_ENTITIES_ge_2 : 2 ≤ MAX_ENTITIES.
Proof. unfold N.le. vm_compute. discriminate. Qed.

Lemma lookup_seqN a n (i : nat) :
  (i < n)%nat → seqN a n !! i = Some (a + N.of_nat i).
Proof.
  revert a i. induction n as [|n IH]; intros a i Hi; [lia|].
  destruct i as [|i]; simpl.
  - f_equal. lia.
  - rewrite IH by lia. f_equal. lia.
Qed.

Lemma elem_of_every_id id : id ∈ every_id ↔ id < MAX_ENTITIES.
Proof.
  unfold every_id. rewrite elem_of_list_to_set, elem_of_seqN. lia.
Qed.

Lemma all_living_ok : allocator_ok all_living every_id.
Proof.
  split; unfold all_living;
    cbn [m_LivingEntityCount m_AvailableEntities m_ComponentArrays].
  - unfold every_id. rewrite size_list_to_set by apply NoDup_seqN.
    rewrite length_seqN. lia.
  - cbn [length]. lia.
  - constructor.
  - intros id. rewrite elem_of_nil, elem_of_every_id. tauto.
  - intros id. by rewrite elem_of_every_id.
  - intros c s. rewrite lookup_insert. case_decide; [|by rewrite lookup_empty].
    intros [= <-]. exists two_entities_content. apply two_entities_packed.
Qed.

(** X7. The allocator invariant. A new registry serves no living entity.
    While fewer than [MAX_ENTITIES] entities live, [CreateEntity] returns an
    id below [MAX_ENTITIES] that does not live, which lives from then on.
    [DestroyEntity] of a living entity returns and the entity lives no more.
    Both keep the invariant: the queue holds every non-living id once and the
    counter is the number of living entities. *)
Theorem X7_allocator_invariant {V : Type} `{!Inhabited V} :
  allocator_ok (Registry.new (V := V)) ∅ ∧
  (∀ (r : Registry V) live,
     allocator_ok r live → N.of_nat (size live) < MAX_ENTITIES →
     ∃ id r', Registry.CreateEntity r = Ok (id, r') ∧
              id < MAX_ENTITIES ∧ (id ∉ live) ∧
              allocator_ok r' ({[id]} ∪ live)) ∧
  (∀ (r : Registry V) live entity,
     allocator_ok r live → entity ∈ live →
     ∃ r', Registry.DestroyEntity entity r = Ok r' ∧
           m_AvailableEntities r' = m_AvailableEntities r ++ [entity] ∧
           allocator_ok r' (live ∖ {[entity]})).
Proof.
  split; [apply allocator_ok_new|]. split.
  - apply allocator_ok_create.
  - apply allocator_ok_destroy.
Qed.

(** X8. [DestroyEntity] makes no liveness check. Destroying a living entity
    twice returns both times and leaves its id twice in the queue, so that
    the registry serves no set of living entities any more; if every id was
    living before, the next two creations both return that id. *)
Theorem X8_double_destroy {V : Type} `{!Inhabited V}
    (r : Registry V) (live : gset Entity) (entity : Entity) :
  allocator_ok r live → entity ∈ live →
  ∃ r1 r2,
    Registry.DestroyEntity entity r = Ok r1 ∧
    Registry.DestroyEntity entity r1 = Ok r2 ∧
    m_AvailableEntities r2 = m_AvailableEntities r ++ [entity; entity] ∧
    (∀ live', ¬ allocator_ok r2 live') ∧
    (m_AvailableEntities r = [] →
     ∃ r3 r4, Registry.CreateEntity r2 = Ok (entity, r3) ∧
              Registry.CreateEntity r3 = Ok (entity, r4)).
Proof.
  intros Hok Hin.
  destruct (allocator_ok_destroy r live entity Hok Hin) as (r1 & Hd1 & Hq1 & Hok1).
  pose proof (alloc_live _ _ Hok _ Hin) as Hlt.
  destruct (DestroyEntity_Ok entity r1 Hlt (alloc_stores _ _ Hok1))
    as (stores2 & Hd2 & _ & _).
  do 2 eexists. split; [exact Hd1|]. split; [exact Hd2|].
  cbn [m_AvailableEntities]. rewrite Hq1, <- app_assoc. simpl.
  split; [done|]. split.
  - intros live' Hok2. pose proof (alloc_nodup _ _ Hok2) as Hnd.
    cbn [m_AvailableEntities] in Hnd.
    apply NoDup_app in Hnd as (_ & _ & Hnd).
    apply NoDup_cons in Hnd as [Hnotin _]. apply Hnotin. by left.
  - intros Hempty. pose proof (alloc_total _ _ Hok1) as Htot.
    rewrite Hq1, Hempty in Htot. simpl in Htot.
    pose proof MAX_ENTITIES_ge_2 as Hge.
    do 2 eexists. split.
    + apply CreateEntity_front; cbn [m_AvailableEntities m_LivingEntityCount].
      * by rewrite Hempty.
      * rewrite uint32_decr_pos by lia. lia.
    + apply CreateEntity_front; cbn [m_AvailableEntities m_LivingEntityCount].
      * reflexivity.
      * rewrite uint32_decr_pos by lia. lia.
Qed.

Lemma X8_double_destroy_witness :
  ∃ r1 r2,
    Registry.DestroyEntity 3 all_living = Ok r1 ∧
    Registry.DestroyEntity 3 r1 = Ok r2 ∧
    m_AvailableEntities r2 = m_AvailableEntities all_living ++ [3; 3] ∧
    (∀ live', ¬ allocator_ok r2 live') ∧
    (m_AvailableEntities all_living = [] →
     ∃ r3 r4, Registry.CreateEntity r2 = Ok (3, r3) ∧
              Registry.CreateEntity r3 = Ok (3, r4)).
Proof.
  apply (X8_double_destroy all_living every_id 3).
  - exact all_living_ok.
  - apply elem_of_every_id. reflexivity.
Defined.

(** X9. On a new registry [DestroyEntity] of an id in range returns although
    the entity was never created: the living count wraps from 0 to
    [2^32 - 1], and [CreateEntity] then fails its assertion while no entity
    lives. *)
Theorem X9_destroy_on_new_registry {V : Type} `{!Inhabited V} (entity : Entity) :
  entity < MAX_ENTITIES →
  ∃ r1 : Registry V,
    Registry.DestroyEntity entity Registry.new = Ok r1 ∧
    m_LivingEntityCount r1 = 2 ^ 32 - 1 ∧
    m_AvailableEntities r1
      = m_AvailableEntities (Registry.new (V := V)) ++ [entity] ∧
    Registry.CreateEntity r1 =
      AssertionFailed "Too many entities in existance.".
Proof.
  intros Hlt. eexists. split.
  - unfold Registry.DestroyEntity.
    rewrite bool_decide_eq_true_2 by done. cbn [assert mbind Result_bind].
    rewrite OnEntityDestroyed_no_stores by reflexivity. reflexivity.
  - cbn [m_LivingEntityCount m_AvailableEntities].
    split; [apply uint32_decr_zero|]. split; [reflexivity|].
    apply CreateEntity_full. cbn [m_LivingEntityCount].
    unfold Registry.new. cbn [m_LivingEntityCount].
    rewrite uint32_decr_zero. unfold N.lt. vm_compute. discriminate.
Qed.

Lemma X9_destroy_on_new_registry_witness :
  ∃ r1 : Registry N,
    Registry.DestroyEntity 3 Registry.new = Ok r1 ∧
    m_LivingEntityCount r1 = 2 ^ 32 - 1 ∧
    m_AvailableEntities r1
      = m_AvailableEntities (Registry.new (V := N)) ++ [3] ∧
    Registry.CreateEntity r1 =
      AssertionFailed "Too many entities in existance.".
Proof. apply (X9_destroy_on_new_registry 3). reflexivity. Defined.

(** X10. The loop of the constructor pushes the ids 0, 1, ...,
    [MAX_ENTITIES - 1] in this order and stops: the queue of a new registry
    has [MAX_ENTITIES] entries and its [k]-th entry is [k]. The counter of
    the loop never wraps. *)
Theorem X10_constructor_queue {V : Type} (more : nat) :
  push_ids (S (N.to_nat MAX_ENTITIES) + more) 0 []
    = m_AvailableEntities (Registry.new (V := V)) ∧
  length (m_AvailableEntities (Registry.new (V := V))) = N.to_nat MAX_ENTITIES ∧
  ∀ k, k < MAX_ENTITIES →
       m_AvailableEntities (Registry.new (V := V)) !! N.to_nat k = Some k.
Proof.
  unfold Registry.new. cbn [m_AvailableEntities]. split; [|split].
  - rewrite push_ids_from; [|lia|lia]. rewrite N.sub_0_r. reflexivity.
  - apply length_seqN.
  - intros k Hk. rewrite lookup_seqN by lia. f_equal. lia.
Qed.

(** ** Component operations through the registry *)

Section RegistryFacts.
Context {V : Type} `{!Inhabited V}.
Implicit Types (r : Registry V) (s : ComponentArray V) (c : ComponentTypeId).

Lemma put_store c s r :
  View.store (m_ComponentArrays (Registry.put c s r)) c = s.
Proof. unfold View.store, Registry.put. simpl. by rewrite lookup_insert_eq. Qed.

Lemma put_put c s s' r :
  Registry.put c s' (Registry.put c s r) = Registry.put c s' r.
Proof. unfold Registry.put. simpl. by rewrite insert_insert_eq. Qed.

Lemma AddComponent_eq c entity x r :
  Registry.AddComponent c entity x r =
    '(slot, s) ← ComponentArray.InsertData entity x
                   (View.store (m_ComponentArrays r) c);
    Ok (slot, Registry.put c s r).
Proof.
  unfold Registry.AddComponent, Registry.GetComponentArray, View.store.
  destruct (m_ComponentArrays r !! c); cbn [default]; [done|].
  destruct (ComponentArray.InsertData _ _ _) as [[slot s]| |];
    cbn [mbind Result_bind]; [|done..].
  exact (f_equal (λ r', Ok (slot, r')) (put_put c ComponentArray.new s r)).
Qed.

Lemma GetComponent_eq c entity r :
  Registry.GetComponent c entity r =
    '(x, s) ← ComponentArray.GetData entity (View.store (m_ComponentArrays r) c);
    Ok (x, Registry.put c s r).
Proof.
  unfold Registry.GetComponent, Registry.GetComponentArray, View.store.
  destruct (m_ComponentArrays r !! c); cbn [default]; [done|].
  destruct (ComponentArray.GetData _ _) as [[x s]| |];
    cbn [mbind Result_bind]; [|done..].
  exact (f_equal (λ r', Ok (x, r')) (put_put c ComponentArray.new s r)).
Qed.

Lemma RemoveComponent_eq c entity r :
  Registry.RemoveComponent c entity r =
    s ← ComponentArray.RemoveData entity (View.store (m_ComponentArrays r) c);
    Ok (Registry.put c s r).
Proof.
  unfold Registry.RemoveComponent, Registry.GetComponentArray, View.store.
  destruct (m_ComponentArrays r !! c); cbn [default]; [done|].
  destruct (ComponentArray.RemoveData _ _) as [s| |];
    cbn [mbind Result_bind]; [|done..].
  exact (f_equal Ok (put_put c ComponentArray.new s r)).
Qed.

Lemma HasComponent_put c entity s r :
  fst (Registry.HasComponent c entity (Registry.put c s r)) =
    ComponentArray.HasData entity s.
Proof. by rewrite HasComponent_store, put_store. Qed.

End RegistryFacts.

(** X11. Scenario 3, for every registry in which the store of the type is
    packed (or not yet made) and lacks the entity: [AddComponent] returns,
    [HasComponent] is true and [GetComponent] returns the added value;
    [RemoveComponent] returns and [HasComponent] is false; a second
    [AddComponent] returns and [GetComponent] returns the new value. The
    lookups leave the registry as it is. *)
Theorem X11_add_remove_add {V : Type} `{!Inhabited V}
    (r : Registry V) (c : ComponentTypeId) (entity : Entity) (x y : V)
    (m : gmap Entity V) :
  packed (View.store (m_ComponentArrays r) c) m →
  m !! entity = None → entity < MAX_ENTITIES →
  ∃ slot r1 r2 slot' r3,
    Registry.AddComponent c entity x r = Ok (slot, r1) ∧
    fst (Registry.HasComponent c entity r1) = true ∧
    Registry.GetComponent c entity r1 = Ok (x, r1) ∧
    Registry.RemoveComponent c entity r1 = Ok r2 ∧
    fst (Registry.HasComponent c entity r2) = false ∧
    Registry.AddComponent c entity y r2 = Ok (slot', r3) ∧
    fst (Registry.HasComponent c entity r3) = true ∧
    Registry.GetComponent c entity r3 = Ok (y, r3).
Proof.
  intros Hp Hnone He.
  destruct (packed_insert _ m entity x Hp Hnone He) as (s1 & Hins1 & _ & Hp1).
  assert (is_Some (<[entity := x]> m !! entity)) as Hsome1
    by (rewrite lookup_insert_eq; eauto).
  destruct (packed_remove s1 _ entity Hp1 Hsome1) as (s2 & Hrem & _ & Hp2).
  rewrite delete_insert_eq in Hp2. rewrite delete_id in Hp2 by done.
  destruct (packed_insert s2 m entity y Hp2 Hnone He) as (s3 & Hins3 & _ & Hp3).
  exists (m_Size (View.store (m_ComponentArrays r) c)), (Registry.put c s1 r),
    (Registry.put c s2 r), (m_Size s2), (Registry.put c s3 r).
  split; [by rewrite AddComponent_eq, Hins1|].
  split.
  { rewrite HasComponent_put. apply HasData_true, (packed_present _ _ Hp1), Hsome1. }
  split.
  { rewrite GetComponent_eq, put_store.
    rewrite (GetData_packed s1 _ entity x Hp1) by apply lookup_insert_eq.
    simpl. by rewrite put_put. }
  split.
  { rewrite RemoveComponent_eq, put_store, Hrem. simpl. by rewrite put_put. }
  split.
  { rewrite HasComponent_put. apply HasData_false.
    apply eq_None_not_Some. rewrite (packed_present _ _ Hp2), Hnone.
    by intros [? ?]. }
  split.
  { rewrite AddComponent_eq, put_store, Hins3. simpl. by rewrite put_put. }
  split.
  { rewrite HasComponent_put. apply HasData_true, (packed_present _ _ Hp3).
    rewrite lookup_insert_eq. eauto. }
  rewrite GetComponent_eq, put_store.
  rewrite (GetData_packed s3 _ entity y Hp3) by apply lookup_insert_eq.
  simpl. by rewrite put_put.
Qed.

Lemma X11_add_remove_add_witness :
  ∃ slot r1 r2 slot' r3,
    Registry.AddComponent 0 8 80 two_stores = Ok (slot, r1) ∧
    fst (Registry.HasComponent 0 8 r1) = true ∧
    Registry.GetComponent 0 8 r1 = Ok (80, r1) ∧
    Registry.RemoveComponent 0 8 r1 = Ok r2 ∧
    fst (Registry.HasComponent 0 8 r2) = false ∧
    Registry.AddComponent 0 8 81 r2 = Ok (slot', r3) ∧
    fst (Registry.HasComponent 0 8 r3) = true ∧
    Registry.GetComponent 0 8 r3 = Ok (81, r3).
Proof.
  apply (X11_add_remove_add two_stores 0 8 80 81 two_entities_content).
  - exact two_entities_packed.
  - reflexivity.
  - reflexivity.
Defined.

(** X12. A component operation on one type touches the store of that type
    only: after [AddComponent], [GetComponent], [RemoveComponent] or
    [HasComponent] on the type [c] the store of every other type, the queue
    of available ids and the living count are what they were. *)
Theorem X12_component_operations_frame {V : Type} `{!Inhabited V}
    (r : Registry V) (c : ComponentTypeId) (entity : Entity) :
  (∀ x slot r', Registry.AddComponent c entity x r = Ok (slot, r') →
     m_AvailableEntities r' = m_AvailableEntities r ∧
     m_LivingEntityCount r' = m_LivingEntityCount r ∧
     ∀ c', c' ≠ c → m_ComponentArrays r' !! c' = m_ComponentArrays r !! c') ∧
  (∀ x r', Registry.GetComponent c entity r = Ok (x, r') →
     m_AvailableEntities r' = m_AvailableEntities r ∧
     m_LivingEntityCount r' = m_LivingEntityCount r ∧
     ∀ c', c' ≠ c → m_ComponentArrays r' !! c' = m_ComponentArrays r !! c') ∧
  (∀ r', Registry.RemoveComponent c entity r = Ok r' →
     m_AvailableEntities r' = m_AvailableEntities r ∧
     m_LivingEntityCount r' = m_LivingEntityCount r ∧
     ∀ c', c' ≠ c → m_ComponentArrays r' !! c' = m_ComponentArrays r !! c') ∧
  (m_AvailableEntities (snd (Registry.HasComponent c entity r))
     = m_AvailableEntities r ∧
   m_LivingEntityCount (snd (Registry.HasComponent c entity r))
     = m_LivingEntityCount r ∧
   ∀ c', c' ≠ c →
     m_ComponentArrays (snd (Registry.HasComponent c entity r)) !! c'
       = m_ComponentArrays r !! c').
Proof.
  assert (∀ s, m_AvailableEntities (Registry.put c s r) = m_AvailableEntities r ∧
     m_LivingEntityCount (Registry.put c s r) = m_LivingEntityCount r ∧
     ∀ c', c' ≠ c →
       m_ComponentArrays (Registry.put c s r) !! c' = m_ComponentArrays r !! c')
    as Hput.
  { intros s. split; [done|]. split; [done|]. intros c' Hc'.
    unfold Registry.put. simpl. by rewrite lookup_insert_ne. }
  split; [|split; [|split]].
  - intros x slot r'. rewrite AddComponent_eq.
    destruct (ComponentArray.InsertData _ _ _) as [[slot1 s]| |]; [|done..].
    simpl. intros [= _ <-]. apply Hput.
  - intros x r'. rewrite GetComponent_eq.
    destruct (ComponentArray.GetData _ _) as [[x1 s]| |]; [|done..].
    simpl. intros [= _ <-]. apply Hput.
  - intros r'. rewrite RemoveComponent_eq.
    destruct (ComponentArray.RemoveData _ _) as [s| |]; [|done..].
    simpl. intros [= <-]. apply Hput.
  - unfold Registry.HasComponent, Registry.GetComponentArray.
    destruct (m_ComponentArrays r !! c); simpl; [done|].
    split; [done|]. split; [done|]. intros c' Hc'. by rewrite lookup_insert_ne.
Qed.

(** ** Further properties of views *)

Section ViewFacts.
Context {V : Type} `{!Inhabited V}.
Implicit Types (stores : Stores V) (v : View) (c : ComponentTypeId).

Lemma expand_same (f : ComponentTypeId → Stores V → Result (V * Stores V))
    (g : ComponentTypeId → V) comps stores :
  (∀ c, c ∈ comps → f c stores = Ok (g c, stores)) →
  View.expand f comps stores = Ok (g <$> comps, stores).
Proof.
  induction comps as [|c comps IH]; intros Hf; simpl; [done|].
  rewrite Hf by (by left). cbn [mbind Result_bind].
  rewrite IH; [done|]. intros c' Hc'. apply Hf. by right.
Qed.

Lemma stored_packed (s : ComponentArray V) m entity :
  packed s m → is_Some (m !! entity) → m !! entity = Some (stored s entity).
Proof.
  intros Hp Hsome. destruct (proj2 (packed_present _ _ Hp entity) Hsome) as [i Hi].
  unfold stored. rewrite Hi. simpl. by apply (packed_values _ _ Hp).
Qed.

(** A lookup of a present entity through a handle reads the value of the
    entity and leaves the stores as they are. *)
Lemma GetAsTuple_present c entity stores m :
  packed (View.store stores c) m →
  ComponentArray.HasData entity (View.store stores c) = true →
  View.GetAsTuple c entity stores = Ok (stored (View.store stores c) entity, stores).
Proof.
  intros Hp Hhas. apply HasData_true in Hhas as Hsome.
  apply (packed_present _ _ Hp) in Hsome.
  unfold View.GetAsTuple.
  rewrite (GetData_packed _ m entity (stored (View.store stores c) entity) Hp)
    by (by apply stored_packed).
  cbn [mbind Result_bind]. do 2 f_equal. apply insert_id.
  unfold View.store in *. destruct (stores !! c); [done|]. done.
Qed.

End ViewFacts.

(** X13. [Get] on a view whose stores are packed: when the view does not
    contain the entity the assertion fails; when it does, the call returns,
    for the requested types of the view (all of them when none is named, in
    the order of the view), the value each store holds for the entity, and
    leaves the stores as they are. *)
Theorem X13_view_get {V : Type} `{!Inhabited V}
    (v : View) (comps : list ComponentTypeId) (entity : Entity)
    (stores : Stores V) :
  (∀ c, c ∈ m_Arrays v → ∃ m, packed (View.store stores c) m) →
  (∀ c, c ∈ comps → c ∈ m_Arrays v) →
  View.Get v comps entity stores =
    (if View.Contains v entity stores
     then Ok ((λ c, stored (View.store stores c) entity)
                <$> match comps with [] => m_Arrays v | _ => comps end,
              stores)
     else AssertionFailed "View does not contain entity") ∧
  (View.Contains v entity stores = true →
   ∀ c m, c ∈ m_Arrays v → packed (View.store stores c) m →
          m !! entity = Some (stored (View.store stores c) entity)).
Proof.
  intros Hpacked Hsub.
  destruct (View.Contains v entity stores) eqn:Hcont.
  - pose proof (proj1 (Contains_true v entity stores) Hcont) as Hall.
    assert (∀ c, c ∈ m_Arrays v →
       View.GetAsTuple c entity stores =
         Ok (stored (View.store stores c) entity, stores)) as Hget.
    { intros c Hc. destruct (Hpacked c Hc) as [m Hm].
      apply (GetAsTuple_present c entity stores m Hm), Hall, Hc. }
    split.
    + unfold View.Get. rewrite Hcont. cbn [assert mbind Result_bind].
      destruct comps as [|c comps].
      * by apply expand_same.
      * apply expand_same. intros c' Hc'. apply Hget, Hsub, Hc'.
    + intros _ c m Hc Hm. apply (stored_packed _ _ _ Hm).
      apply (packed_present _ _ Hm), HasData_true, Hall, Hc.
  - split; [|done]. unfold View.Get. by rewrite Hcont.
Qed.

Lemma X13_view_get_witness :
  View.Get {| m_First := 0; m_Rest := [1] |} [] 5 (m_ComponentArrays two_stores) =
    (if View.Contains {| m_First := 0; m_Rest := [1] |} 5 (m_ComponentArrays two_stores)
     then Ok ((λ c, stored (View.store (m_ComponentArrays two_stores) c) 5)
                <$> m_Arrays {| m_First := 0; m_Rest := [1] |},
              m_ComponentArrays two_stores)
     else AssertionFailed "View does not contain entity") ∧
  (View.Contains {| m_First := 0; m_Rest := [1] |} 5 (m_ComponentArrays two_stores) = true →
   ∀ c m, c ∈ m_Arrays {| m_First := 0; m_Rest := [1] |} →
          packed (View.store (m_ComponentArrays two_stores) c) m →
          m !! 5 = Some (stored (View.store (m_ComponentArrays two_stores) c) 5)).
Proof.
  apply (X13_view_get {| m_First := 0; m_Rest := [1] |} [] 5
           (m_ComponentArrays two_stores)).
  - intros c Hc. exists two_entities_content.
    unfold m_Arrays in Hc. simpl in Hc.
    apply elem_of_cons in Hc as [->|Hc]; [exact two_entities_packed|].
    apply list_elem_of_singleton in Hc as ->. exact two_entities_packed.
  - intros c Hc. by apply elem_of_nil in Hc.
Defined.

Example two_stores_get :
  fst <$> View.Get {| m_First := 0; m_Rest := [1] |} [] 5 (m_ComponentArrays two_stores)
    = Ok [20; 20].
Proof. reflexivity. Qed.

Section EachFacts.
Context {V : Type} `{!Inhabited V}.
Implicit Types (stores : Stores V) (v : View).

(** The loop of [Each] from component index [n] over entities that every
    other store of the view has. *)
Lemma Each_loop_calls v stores (l : list Entity) (n : Index) :
  m_First v ∉ m_Rest v →
  (∀ c, c ∈ m_Rest v → ∃ m, packed (View.store stores c) m ∧
        ∀ e, e ∈ l → is_Some (m !! e)) →
  N.of_nat (length l) ≤ n → n ≤ MAX_ENTITIES →
  View.Each_loop v l {| m_Index := n |} stores =
    Ok (imap (λ k e,
                (e, m_ComponentArray (View.store stores (m_First v))
                      (n - 1 - N.of_nat k)
                    :: ((λ c, stored (View.store stores c) e) <$> m_Rest v))) l,
        stores).
Proof.
  intros Hfirst. revert n.
  induction l as [|e l IH]; intros n Hrest Hlen Hcap; [done|].
  cbn [View.Each_loop m_Arrays View.expand length] in *.
  assert (View.DispatchGet v {| m_Index := n |} e (m_First v) stores =
            Ok (m_ComponentArray (View.store stores (m_First v)) (n - 1), stores))
    as ->.
  { unfold View.DispatchGet. rewrite decide_True by done.
    unfold ComponentArray.Iterator_deref. cbn [m_Index].
    rewrite size_t_decr_pos by lia. by rewrite array_read_Ok by lia. }
  cbn [mbind Result_bind].
  rewrite (expand_same _ (λ c, stored (View.store stores c) e)).
  - cbn [mbind Result_bind].
    unfold ComponentArray.Iterator_incr. cbn [m_Index].
    rewrite size_t_decr_pos by lia.
    rewrite IH; [| |lia|lia].
    + cbn [mbind Result_bind imap]. do 3 f_equal.
      * rewrite N.sub_0_r. reflexivity.
      * apply imap_ext. intros k e' _. simpl. do 3 f_equal. lia.
    + intros c Hc. destruct (Hrest c Hc) as (m & Hm & Hin).
      exists m. split; [done|]. intros e' He'. apply Hin. by right.
  - intros c Hc. unfold View.DispatchGet.
    rewrite decide_False by (intros ->; done).
    destruct (Hrest c Hc) as (m & Hm & Hin).
    apply (GetAsTuple_present c e stores m Hm).
    apply HasData_true, (packed_present _ _ Hm), Hin. by left.
Qed.

End EachFacts.

(** X14. [Each] on a view whose first store is packed and whose other
    stores are packed and hold every entity of the first: the callback is
    called once for each entity of the first store, in the enumeration order
    of its entity index, and the stores are left as they are. The [k]-th call
    receives, for the first type, the value of slot [m_Size - 1 - k] of the
    first store, whichever entity that slot belongs to, and for every other
    type the value the store of the type holds for the entity. *)
Theorem X14_each_calls {V : Type} `{!Inhabited V} {order : MapOrder}
    (v : View) (stores : Stores V) (m1 : gmap Entity V) :
  packed (View.store stores (m_First v)) m1 →
  m_First v ∉ m_Rest v →
  (∀ c, c ∈ m_Rest v → ∃ m, packed (View.store stores c) m ∧
        ∀ e, is_Some (m1 !! e) → is_Some (m !! e)) →
  View.Each v stores =
    Ok (imap (λ k e,
                (e, m_ComponentArray (View.store stores (m_First v))
                      (m_Size (View.store stores (m_First v)) - 1 - N.of_nat k)
                    :: ((λ c, stored (View.store stores c) e) <$> m_Rest v)))
             (map_keys (m_EntityToIndexMap (View.store stores (m_First v)))),
        stores).
Proof.
  intros Hp1 Hfirst Hrest. unfold View.Each, ComponentArray.begin,
    ComponentArray.BeginEntityIt.
  apply Each_loop_calls; [done| | |apply (packed_capacity _ _ Hp1)].
  - intros c Hc. destruct (Hrest c Hc) as (m & Hm & Hin).
    exists m. split; [done|]. intros e He. apply Hin.
    apply (packed_present _ _ Hp1). by apply elem_of_map_order.
  - rewrite map_keys_perm, length_fmap, length_map_to_list.
    by rewrite (packed_count _ _ Hp1).
Qed.

Lemma X14_each_calls_witness :
  View.Each (H := AscendingOrder) {| m_First := 0; m_Rest := [1] |}
    (m_ComponentArrays two_stores) =
    Ok (imap (λ k e,
                (e, m_ComponentArray (View.store (m_ComponentArrays two_stores) 0)
                      (m_Size (View.store (m_ComponentArrays two_stores) 0)
                         - 1 - N.of_nat k)
                    :: ((λ c, stored (View.store (m_ComponentArrays two_stores) c) e)
                          <$> [1])))
             (keys_ascending
                (m_EntityToIndexMap (View.store (m_ComponentArrays two_stores) 0))),
        m_ComponentArrays two_stores).
Proof.
  apply (X14_each_calls (order := AscendingOrder) {| m_First := 0; m_Rest := [1] |}
           (m_ComponentArrays two_stores) two_entities_content).
  - exact two_entities_packed.
  - simpl. intros Hin. apply list_elem_of_singleton in Hin. discriminate.
  - intros c Hc. simpl in Hc. apply list_elem_of_singleton in Hc as ->.
    exists two_entities_content. split; [exact two_entities_packed|done].
Defined.

(** In the store of two entities slot 0 belongs to entity 3 and slot 1 to
    entity 5: with keys enumerated in increasing order entity 3 is called
    with the value of entity 5 for the first type. *)
Example two_stores_each :
  fst <$> View.Each (H := AscendingOrder) {| m_First := 0; m_Rest := [1] |}
            (m_ComponentArrays two_stores)
    = Ok [(3, [20; 10]); (5, [10; 20])].
Proof. reflexivity. Qed.

(** ** Making a view *)

Section ViewCreation.
Context {V : Type} `{!Inhabited V}.
Implicit Types (r : Registry V) (c : ComponentTypeId).

Lemma GetComponentArray_made c r :
  is_Some (m_ComponentArrays (snd (Registry.GetComponentArray c r)) !! c).
Proof.
  unfold Registry.GetComponentArray.
  destruct (m_ComponentArrays r !! c) eqn:Hc; simpl; [by rewrite Hc|].
  rewrite lookup_insert_eq. eauto.
Qed.

Lemma GetComponentArray_keeps c c' s r :
  m_ComponentArrays r !! c' = Some s →
  m_ComponentArrays (snd (Registry.GetComponentArray c r)) !! c' = Some s.
Proof.
  intros Hc'. unfold Registry.GetComponentArray.
  destruct (m_ComponentArrays r !! c) eqn:Hc; simpl; [done|].
  rewrite lookup_insert_ne; [done|]. congruence.
Qed.

Lemma GetComponentArray_allocator c r :
  m_AvailableEntities (snd (Registry.GetComponentArray c r)) = m_AvailableEntities r ∧
  m_LivingEntityCount (snd (Registry.GetComponentArray c r)) = m_LivingEntityCount r.
Proof.
  unfold Registry.GetComponentArray. by destruct (m_ComponentArrays r !! c).
Qed.

Lemma make_stores comps r :
  let r' := foldl (λ r c, snd (Registry.GetComponentArray c r)) r comps in
  (∀ c, c ∈ comps → is_Some (m_ComponentArrays r' !! c)) ∧
  (∀ c s, m_ComponentArrays r !! c = Some s → m_ComponentArrays r' !! c = Some s) ∧
  m_AvailableEntities r' = m_AvailableEntities r ∧
  m_LivingEntityCount r' = m_LivingEntityCount r.
Proof.
  revert r. induction comps as [|c0 comps IH]; intros r; simpl.
  - split; [|done]. intros c Hc. by apply elem_of_nil in Hc.
  - destruct (IH (snd (Registry.GetComponentArray c0 r))) as (Hmade & Hkeep & Hq & Hn).
    destruct (GetComponentArray_allocator c0 r) as [Hq0 Hn0].
    split; [|split; [|split; congruence]].
    + intros c Hc. apply elem_of_cons in Hc as [Heq|Hc]; [|by apply Hmade].
      subst c. destruct (GetComponentArray_made c0 r) as [s Hs].
      exists s. by apply Hkeep.
    + intros c s Hc. by apply Hkeep, GetComponentArray_keeps.
Qed.

End ViewCreation.

(** X15. [View<Components...>()] with no type fails its static assertion.
    With at least one type it returns the view of the types in their order;
    afterwards the registry holds a store for each of the types, every store
    it held before is unchanged, a store it had to make is empty, and the
    allocator is as it was. *)
Theorem X15_view_creation {V : Type} `{!Inhabited V} (r : Registry V) :
  Registry.View [] r = AssertionFailed "Cannot make a view with no components" ∧
  ∀ c0 cs, ∃ r',
    Registry.View (c0 :: cs) r = Ok ({| m_First := c0; m_Rest := cs |}, r') ∧
    (∀ c, c ∈ c0 :: cs → is_Some (m_ComponentArrays r' !! c)) ∧
    (∀ c s, m_ComponentArrays r !! c = Some s →
            m_ComponentArrays r' !! c = Some s) ∧
    (∀ c, View.store (m_ComponentArrays r') c = View.store (m_ComponentArrays r) c) ∧
    m_AvailableEntities r' = m_AvailableEntities r ∧
    m_LivingEntityCount r' = m_LivingEntityCount r.
Proof.
  split; [reflexivity|]. intros c0 cs.
  destruct (make_stores (c0 :: cs) r) as (Hmade & Hkeep & Hq & Hn).
  eexists. split; [apply View_Ok|].
  split; [exact Hmade|]. split; [exact Hkeep|].
  split; [|by split]. intros c. apply View_store.
Qed.

(** ** Steps of the component iterator *)

Lemma size_t_incr_decr n : n < 2 ^ 64 → size_t_incr (size_t_decr n) = n.
Proof.
  unfold size_t_incr, size_t_decr, size_t_wrap.
  assert (2 ^ 64 ≠ 0) as Hnz by (by vm_compute).
  revert Hnz. generalize (2 ^ 64). intros M HM Hn.
  destruct (decide (n = 0)) as [->|Hne].
  - rewrite N.add_0_l, (N.mod_small (M - 1)) by lia.
    replace (M - 1 + 1) with M by lia. by apply N.Div0.mod_same.
  - replace (n + M - 1) with ((n - 1) + 1 * M) by lia.
    rewrite N.Div0.mod_add, (N.mod_small (n - 1)) by lia.
    replace (n - 1 + 1) with n by lia. apply N.mod_small. lia.
Qed.

Lemma size_t_decr_incr n : n < 2 ^ 64 → size_t_decr (size_t_incr n) = n.
Proof.
  unfold size_t_incr, size_t_decr, size_t_wrap.
  assert (2 ^ 64 ≠ 0) as Hnz by (by vm_compute).
  revert Hnz. generalize (2 ^ 64). intros M HM Hn.
  destruct (decide (n + 1 = M)) as [Heq|Hne].
  - rewrite Heq, N.Div0.mod_same, N.add_0_l. rewrite N.mod_small by lia. lia.
  - rewrite (N.mod_small (n + 1)) by lia.
    replace (n + 1 + M - 1) with (n + 1 * M) by lia.
    rewrite N.Div0.mod_add. apply N.mod_small. lia.
Qed.

(** X16. On every position a [size_t] can hold, [operator--] undoes
    [operator++] and [operator++] undoes [operator--], wrap-around included.
    [begin()] equals [end()] exactly when the store is empty, the loop over
    an empty store has no iteration, and a dereference of [end()] reads the
    array at index [2^64 - 1], out of bounds. *)
Theorem X16_iterator_steps {T : Type} `{!Inhabited T}
    (s : ComponentArray T) (it : Iterator) :
  m_Index it < 2 ^ 64 →
  ComponentArray.Iterator_decr (ComponentArray.Iterator_incr it) = it ∧
  ComponentArray.Iterator_incr (ComponentArray.Iterator_decr it) = it ∧
  (ComponentArray.Iterator_eq (ComponentArray.begin s) (ComponentArray.end_ s) = true
     ↔ m_Size s = 0) ∧
  (m_Size s = 0 →
     ∀ fuel, ComponentArray.range_loop (S fuel) s (ComponentArray.begin s) = Ok []) ∧
  ComponentArray.Iterator_deref s (ComponentArray.end_ s) = Undefined.
Proof.
  intros Hit. destruct it as [n]. cbn [m_Index] in Hit.
  unfold ComponentArray.Iterator_decr, ComponentArray.Iterator_incr.
  cbn [m_Index].
  split; [by rewrite size_t_incr_decr|]. split; [by rewrite size_t_decr_incr|].
  split; [|split].
  - unfold ComponentArray.Iterator_eq, ComponentArray.begin, ComponentArray.end_.
    cbn [m_Index]. apply bool_decide_eq_true.
  - intros Hs fuel. cbn [ComponentArray.range_loop].
    unfold ComponentArray.Iterator_ne, ComponentArray.Iterator_eq,
      ComponentArray.begin, ComponentArray.end_. cbn [m_Index].
    by rewrite bool_decide_eq_true_2.
  - unfold ComponentArray.Iterator_deref, ComponentArray.end_. cbn [m_Index].
    rewrite size_t_decr_zero. unfold ComponentArray.array_read.
    rewrite decide_False; [done|]. by vm_compute.
Qed.

Lemma X16_iterator_steps_witness :
  ComponentArray.Iterator_decr (ComponentArray.Iterator_incr {| m_Index := 0 |})
    = {| m_Index := 0 |} ∧
  ComponentArray.Iterator_incr (ComponentArray.Iterator_decr {| m_Index := 0 |})
    = {| m_Index := 0 |} ∧
  (ComponentArray.Iterator_eq (ComponentArray.begin two_entities)
     (ComponentArray.end_ two_entities) = true
     ↔ m_Size two_entities = 0) ∧
  (m_Size two_entities = 0 →
     ∀ fuel, ComponentArray.range_loop (S fuel) two_entities
               (ComponentArray.begin two_entities) = Ok []) ∧
  ComponentArray.Iterator_deref two_entities (ComponentArray.end_ two_entities)
    = Undefined.
Proof.
  apply (X16_iterator_steps two_entities {| m_Index := 0 |}). reflexivity.
Defined.

(** ** Double insertion and safe destruction *)

(** X17. A second [InsertData] of a present entity followed by one
    [RemoveData] loses a slot: both calls return and the entity is gone from
    the entity index, but [m_Size] is what it was before the two calls and
    the slot the entity had at first still holds its value and still names
    the entity in [m_IndexToEntityMap]. The store is not packed, whatever
    content one takes. *)
Theorem X17_double_insert_leaks_slot {T : Type} `{!Inhabited T}
    (s : ComponentArray T) (m : gmap Entity T) (e : Entity) (i : Index) (v : T) :
  packed s m → m_EntityToIndexMap s !! e = Some i → m_Size s < MAX_ENTITIES →
  ∃ s1 s2,
    ComponentArray.InsertData e v s = Ok (m_Size s, s1) ∧
    ComponentArray.RemoveData e s1 = Ok s2 ∧
    ComponentArray.HasData e s2 = false ∧
    m_Size s2 = m_Size s ∧
    m_IndexToEntityMap s2 !! i = Some e ∧
    m_ComponentArray s2 i = m_ComponentArray s i ∧
    ∀ m', ¬ packed s2 m'.
Proof.
  intros Hp He Hroom.
  pose proof (packed_slot_bound _ _ _ _ Hp He) as Hi.
  pose proof (proj1 (packed_inverse _ _ Hp _ _) He) as Hie.
  do 2 eexists. split; [by apply InsertData_Ok|].
  assert (m_Size s + 1 - 1 = m_Size s) as Hsub by lia.
  split.
  { apply (RemoveData_Ok e (m_Size s) e); cbn [m_EntityToIndexMap
      m_IndexToEntityMap m_Size m_ComponentArray].
    - apply lookup_insert_eq.
    - done.
    - lia.
    - lia.
    - rewrite Hsub. apply lookup_insert_eq. }
  cbn [m_EntityToIndexMap m_IndexToEntityMap m_Size m_ComponentArray].
  rewrite Hsub.
  assert (delete (m_Size s)
            (<[m_Size s := e]> (<[m_Size s := e]> (m_IndexToEntityMap s))) !! i
          = Some e) as Hstale.
  { rewrite lookup_delete_ne, !lookup_insert_ne by lia. done. }
  split; [apply HasData_false; cbn [m_EntityToIndexMap]; apply lookup_delete_eq|].
  split; [done|]. split; [exact Hstale|]. split.
  - rewrite !fn_lookup_insert_ne by lia. done.
  - intros m' Hp'. apply (packed_inverse _ _ Hp') in Hstale.
    cbn [m_EntityToIndexMap] in Hstale. by rewrite lookup_delete_eq in Hstale.
Qed.

Lemma X17_double_insert_leaks_slot_witness :
  ∃ s1 s2,
    ComponentArray.InsertData 3 30 two_entities = Ok (m_Size two_entities, s1) ∧
    ComponentArray.RemoveData 3 s1 = Ok s2 ∧
    ComponentArray.HasData 3 s2 = false ∧
    m_Size s2 = m_Size two_entities ∧
    m_IndexToEntityMap s2 !! 0 = Some 3 ∧
    m_ComponentArray s2 0 = m_ComponentArray two_entities 0 ∧
    ∀ m', ¬ packed s2 m'.
Proof.
  apply (X17_double_insert_leaks_slot two_entities two_entities_content 3 0 30).
  - exact two_entities_packed.
  - reflexivity.
  - reflexivity.
Defined.

(** X18. [OnEntityDestroyed] is safe on every packed store, for a present
    entity and for an absent one: it returns, the store stays packed, its
    content is the old content without the entity and [HasData] of the
    entity is false. *)
Theorem X18_OnEntityDestroyed_safe {T : Type} `{!Inhabited T}
    (s : ComponentArray T) (m : gmap Entity T) (e : Entity) :
  packed s m →
  ∃ s', ComponentArray.OnEntityDestroyed e s = Ok s' ∧
        packed s' (delete e m) ∧
        ComponentArray.HasData e s' = false ∧
        (m !! e = None → s' = s).
Proof.
  intros Hp.
  destruct (OnEntityDestroyed_packed e s m Hp) as (s' & Hd & Hp').
  exists s'. split; [done|]. split; [done|]. split.
  - by apply OnEntityDestroyed_gone in Hd.
  - intros Hnone. unfold ComponentArray.OnEntityDestroyed in Hd.
    assert (ComponentArray.HasData e s = false) as Hhas.
    { apply HasData_false, eq_None_not_Some.
      rewrite (packed_present _ _ Hp), Hnone. by intros [? ?]. }
    rewrite Hhas in Hd. by injection Hd.
Qed.

Lemma X18_OnEntityDestroyed_safe_witness :
  ∃ s', ComponentArray.OnEntityDestroyed 9 two_entities = Ok s' ∧
        packed s' (delete 9 two_entities_content) ∧
        ComponentArray.HasData 9 s' = false ∧
        (two_entities_content !! 9 = None → s' = two_entities).
Proof.
  apply (X18_OnEntityDestroyed_safe two_entities two_entities_content 9).
  exact two_entities_packed.
Defined.
